(** * Conversation context, usage analytics and model routing

    A shallow embedding of the stateful core of the chat front-end:

    - [analytics.py]: [update_analytics], [load_analytics], [save_analytics],
      [get_analytics_summary], [count_tokens];
    - [api_client.py]: [load_api_keys], [get_model_for_api_key],
      [generate_response];
    - [ai_features.py]: the session-scoped conversation context and
      [generate_response_with_context].

    Python dictionaries with a fixed set of keys are records; dictionaries
    used as maps are insertion-ordered association lists (the iteration order
    of a Python [dict], which [sorted] observes); Python [int] is [Z]; Python
    [float] is IEEE binary64 (Rocq's primitive floats).  The file system, the
    process environment, the Streamlit session and the HTTP provider are
    explicit state that the functions thread through. *)

From Stdlib Require Import ZArith List String Lia.
From Stdlib Require Import QArith Qfield Qabs Qpower Lqa Floats.
From Stdlib Require Import Permutation Sorted.
Import ListNotations.

Set Implicit Arguments.
Set Warnings "-inexact-float".

Local Open Scope string_scope.
Local Open Scope list_scope.
Local Open Scope Z_scope.

(** ** Numbers

    [update_analytics] mixes [int] counters with a [float] average.  The
    arithmetic it uses is kept abstract so that the same embedding can be
    read in the program's own binary64 arithmetic and in exact rational
    arithmetic. *)

Record arith (num : Type) : Type := Arith {
  of_int : Z -> num;          (* implicit int -> float promotion *)
  add : num -> num -> num;    (* x + y *)
  mul : num -> num -> num;    (* x * y *)
  div : num -> num -> num;    (* x / y, true division *)
  round2 : num -> num         (* round(x, 2) *)
}.

(** Round to the nearest integer, ties to the even neighbour. *)
Definition round_half_even (q : Q) : Z :=
  let n := Qnum q in
  let d := Zpos (Qden q) in
  let fl := n / d in
  let r2 := 2 * (n mod d) in
  if r2 <? d then fl
  else if d <? r2 then fl + 1
  else if Z.even fl then fl else fl + 1.

Module Binary64.

(** Python converts an [int] operand to the nearest double. *)
Definition of_int (z : Z) : float :=
  SF2Prim (binary_normalize prec emax z 0 false).

(** The exact rational value of a finite double (0 for the others). *)
Definition SF2Q (f : spec_float) : Q :=
  match f with
  | S754_finite s m e =>
      let v := if 0 <=? e
               then inject_Z (Zpos m * 2 ^ e)
               else Qmake (Zpos m) (Pos.pow 2 (Z.to_pos (- e))) in
      if s then Qopp v else v
  | _ => 0%Q
  end.

Definition to_Q (x : float) : Q := SF2Q (Prim2SF x).

(** Python's built-in [round(x, 2)] on a float: the exact binary value is
    rounded to the nearest hundredth, ties to even, and the decimal result
    is converted back to the nearest double with the sign of [x]; NaN and
    the infinities are returned unchanged. *)
Definition round2 (x : float) : float :=
  match Prim2SF x with
  | S754_finite s m e =>
      match round_half_even (Qmult (SF2Q (S754_finite false m e)) (inject_Z 100)) with
      | Zpos p => SF2Prim (SFdiv prec emax (S754_finite s p 0) (S754_finite false 100 0))
      | _ => SF2Prim (S754_zero s)
      end
  | _ => x
  end.

Definition ops : arith float :=
  Arith of_int PrimFloat.add PrimFloat.mul PrimFloat.div round2.

End Binary64.

Module Exact.

(** [round(x, 2)] read over the rationals. *)
Definition round2 (q : Q) : Q :=
  Qmake (round_half_even (Qmult q (inject_Z 100))) 100.

Definition ops : arith Q := Arith inject_Z Qplus Qmult Qdiv round2.

End Exact.

(** ** Dictionaries used as maps *)

Definition dict : Type := list (string * Z).

Fixpoint dict_get (k : string) (d : dict) : option Z :=
  match d with
  | [] => None
  | (k', v) :: r => if String.eqb k k' then Some v else dict_get k r
  end.

(** [d[k] = v]: an existing key keeps its position, a new key goes last. *)
Fixpoint dict_set (k : string) (v : Z) (d : dict) : dict :=
  match d with
  | [] => [(k, v)]
  | (k', v') :: r =>
      if String.eqb k k' then (k', v) :: r else (k', v') :: dict_set k v r
  end.

(** [d.values()] and [sum(d.values())]. *)
Definition dict_values (d : dict) : list Z := map snd d.

Definition sum_values (d : dict) : Z := fold_right Z.add 0 (dict_values d).

(** [if k in d: d[k] += 1 else: d[k] = 1]  (analytics.py 90-93, 109-112). *)
Definition count_one (k : string) (d : dict) : dict :=
  match dict_get k d with
  | Some v => dict_set k (v + 1) d
  | None => dict_set k 1 d
  end.

(** A Python [str] is held as its UTF-8 encoding.  [len(text)] counts code
    points: the bytes that are not continuation bytes (10xxxxxx). *)
Definition is_continuation (c : Ascii.ascii) : bool :=
  match c with
  | Ascii.Ascii _ _ _ _ _ _ b6 b7 => b7 && negb b6
  end.

Fixpoint py_len (text : string) : nat :=
  match text with
  | EmptyString => O
  | String c rest =>
      if is_continuation c then py_len rest else S (py_len rest)
  end.

(** [count_tokens]: [len(text) // 4]. *)
Definition count_tokens (text : string) : Z :=
  Z.of_nat (py_len text) / 4.

(** ** Usage statistics (analytics.py) *)

Inductive write_outcome : Type :=
| WriteOk      (* the snapshot was written *)
| OpenFails    (* open(ANALYTICS_FILE, 'w') raised: the file is untouched *)
| DumpFails.   (* raised after the file was truncated: partial content *)

(** What one call of [update_analytics] meets in the file system. *)
Record io : Type := IO {
  readable : bool;            (* does open(ANALYTICS_FILE, 'r') succeed *)
  write : write_outcome
}.

Definition io_ok : io := IO true WriteOk.

(** Messages shown to the operator with [st.error]. *)
Inductive ui_message : Type :=
| ErrorLoadingAnalytics
| ErrorSavingAnalytics.

Section Analytics.

Context {num : Type} (A : arith num).

(** The dictionary built by [save_conversation] (analytics.py 53-63),
    without its timestamp and texts. *)
Record conversation_data : Type := ConversationData {
  username : string;
  model : string;
  response_time : num;
  prompt_tokens : Z;
  response_tokens : Z;
  total_tokens : Z
}.

Definition new_conversation_data (user mdl : string) (t : num)
    (ptok rtok : Z) : conversation_data :=
  ConversationData user mdl t ptok rtok (ptok + rtok).

(** The statistics dictionary. *)
Record analytics : Type := Analytics {
  total_conversations : Z;
  stat_total_tokens : Z;
  avg_response_time : num;
  model_usage : dict;
  user_activity : dict
}.

(** The default returned by [load_analytics] (analytics.py 127-133). *)
Definition default_analytics : analytics :=
  Analytics 0 0 (of_int A 0) [] [].

(** Content of [analytics_data.json]: the JSON text of a statistics
    dictionary, or text that [json.load] rejects.  The text layer of the
    [json] library is not modelled: a document stands for its text.  The
    file is only ever written by [save_analytics], so JSON documents of
    another shape are left out. *)
Inductive file : Type :=
| Doc (a : analytics)
| Corrupt.

(** [None]: [os.path.exists(ANALYTICS_FILE)] is false. *)
Definition disk : Type := option file.

(** [load_analytics] (analytics.py 118-146). *)
Definition load_analytics (can_read : bool) (d : disk)
  : analytics * list ui_message :=
  match d with
  | None => (default_analytics, [])
  | Some f =>
      match can_read, f with
      | true, Doc a => (a, [])
      | _, _ => (default_analytics, [ErrorLoadingAnalytics])
      end
  end.

(** [save_analytics] (analytics.py 149-160). *)
Definition save_analytics (w : write_outcome) (a : analytics) (d : disk)
  : disk * list ui_message :=
  match w with
  | WriteOk => (Some (Doc a), [])
  | OpenFails => (d, [ErrorSavingAnalytics])
  | DumpFails => (Some Corrupt, [ErrorSavingAnalytics])
  end.

(** The in-place mutations of [update_analytics] (analytics.py 88-112),
    in the order of the source. *)
Definition record_conversation (c : conversation_data) (a : analytics)
  : analytics :=
  let usage := count_one (model c) (model_usage a) in
  let count := total_conversations a + 1 in
  let tokens := stat_total_tokens a + total_tokens c in
  let new_count := count in
  let old_avg := avg_response_time a in
  let new_time := response_time c in
  let avg :=
    div A (add A (mul A old_avg (of_int A (new_count - 1))) new_time)
          (of_int A new_count) in
  let activity := count_one (username c) (user_activity a) in
  Analytics count tokens avg usage activity.

(** [update_analytics] (analytics.py 79-115): load, mutate, save. *)
Definition update_analytics (e : io) (c : conversation_data) (d : disk)
  : disk * list ui_message :=
  let (a, m1) := load_analytics (readable e) d in
  let (d', m2) := save_analytics (write e) (record_conversation c a) d in
  (d', m1 ++ m2).

(** A run of the process: [update_analytics] once per exchange, each call
    with its own file-system behaviour. *)
Fixpoint run_updates (evs : list (io * conversation_data)) (d : disk) : disk :=
  match evs with
  | [] => d
  | (e, c) :: r => run_updates r (fst (update_analytics e c d))
  end.

(** A run on a file system that never fails. *)
Definition apply_all (cs : list conversation_data) (d : disk) : disk :=
  run_updates (map (fun c => (io_ok, c)) cs) d.

(** [sorted(d.items(), key=lambda x: x[1], reverse=True)]: descending by
    count; [sorted] is stable, also with [reverse=True], so items with equal
    counts stay in iteration order. *)
Fixpoint insert_desc (x : string * Z) (l : list (string * Z))
  : list (string * Z) :=
  match l with
  | [] => [x]
  | y :: r => if snd y <=? snd x then x :: l else y :: insert_desc x r
  end.

Definition sorted_by_count_desc (items : list (string * Z))
  : list (string * Z) :=
  fold_right insert_desc [] items.

Record summary : Type := Summary {
  sum_total_conversations : Z;
  sum_total_tokens : Z;
  sum_avg_response_time : num;
  top_models : list (string * Z);
  top_users : list (string * Z)
}.

(** The summary of a loaded statistics dictionary (analytics.py 202-216). *)
Definition summary_of (a : analytics) : summary :=
  let top_m := sorted_by_count_desc (model_usage a) in
  let top_u := sorted_by_count_desc (user_activity a) in
  Summary (total_conversations a)
          (stat_total_tokens a)
          (round2 A (avg_response_time a))
          (firstn 5 top_m)
          (firstn 5 top_u).

(** [get_analytics_summary] (analytics.py 193-216). *)
Definition get_analytics_summary (can_read : bool) (d : disk)
  : summary * list ui_message :=
  let (a, m) := load_analytics can_read d in
  (summary_of a, m).

End Analytics.

Arguments conversation_data : clear implicits.
Arguments analytics : clear implicits.
Arguments file : clear implicits.
Arguments disk : clear implicits.
Arguments summary : clear implicits.
Arguments Doc {num} a.
Arguments Corrupt {num}.

(** ** Credentials and models (api_client.py) *)

Module Router.

(** [os.getenv]. *)
Definition environ : Type := string -> option string.

(** The variables read by [load_api_keys]: [OPENROUTER_API_KEY_{i}] for
    [i] in [range(1, 5)]. *)
Definition key_names : list string :=
  [ "OPENROUTER_API_KEY_1"; "OPENROUTER_API_KEY_2";
    "OPENROUTER_API_KEY_3"; "OPENROUTER_API_KEY_4" ].

(** [load_api_keys] (api_client.py 13-28): unset and empty variables are
    skipped. *)
Definition load_api_keys (env : environ) : list string :=
  flat_map (fun name =>
              match env name with
              | Some key => if String.eqb key "" then [] else [key]
              | None => []
              end) key_names.

(** [l.index(x)]: the first position of [x]; [None] stands for ValueError. *)
Fixpoint index (x : string) (l : list string) : option nat :=
  match l with
  | [] => None
  | y :: r => if String.eqb y x then Some O else option_map S (index x r)
  end.

Definition models : list string :=
  [ "deepseek/deepseek-chat";
    "google/gemini-2.0-flash-exp:free";
    "01-ai/yi-large";
    "qwen/qwen-2.5-72b-instruct" ].

(** The body of [get_model_for_api_key] after the credentials are loaded
    (api_client.py 83-100). *)
Definition model_for_keys (api_keys : list string) (api_key : string) : string :=
  match api_keys with
  | [] => "deepseek/deepseek-chat"
  | _ :: _ =>
      match index api_key api_keys with
      | None => "deepseek/deepseek-chat"
      | Some key_index =>
          if (key_index <? List.length models)%nat
          then nth key_index models ""
          else nth 0 models ""
      end
  end.

(** [get_model_for_api_key] (api_client.py 69-100). *)
Definition get_model_for_api_key (env : environ) (api_key : string) : string :=
  model_for_keys (load_api_keys env) api_key.

End Router.

(** ** Conversation context (ai_features.py) and the provider call *)

Module Context.

Record message : Type := Message {
  role : string;
  content : string
}.

(** The two keys of [st.session_state] used by the context; [None] when the
    key is not in the session. *)
Record session_state : Type := Session {
  conversation_history : option (list message);
  system_prompt : option string
}.

Definition empty_session : session_state := Session None None.

(** [initialize_conversation_context] (ai_features.py 12-16). *)
Definition initialize_conversation_context (s : session_state) : session_state :=
  Session
    (match conversation_history s with
     | None => Some []
     | Some h => Some h
     end)
    (match system_prompt s with
     | None => Some "You are a helpful AI assistant."
     | Some p => Some p
     end).

Definition history_of (s : session_state) : list message :=
  match conversation_history s with
  | Some h => h
  | None => []
  end.

(** [add_message_to_context] (ai_features.py 19-22). *)
Definition add_message_to_context (r c : string) (s : session_state)
  : session_state :=
  let s1 := match conversation_history s with
            | None => initialize_conversation_context s
            | Some _ => s
            end in
  Session (Some (history_of s1 ++ [Message r c])) (system_prompt s1).

(** [get_conversation_context] (ai_features.py 25-28). *)
Definition get_conversation_context (s : session_state)
  : list message * session_state :=
  let s1 := match conversation_history s with
            | None => initialize_conversation_context s
            | Some _ => s
            end in
  (history_of s1, s1).

(** [clear_conversation_context] and [set_system_prompt]
    (ai_features.py 31-36). *)
Definition clear_conversation_context (s : session_state) : session_state :=
  Session (Some []) (system_prompt s).

Definition set_system_prompt (p : string) (s : session_state) : session_state :=
  Session (conversation_history s) (Some p).

(** [get_system_prompt] (ai_features.py 39-42). *)
Definition get_system_prompt (s : session_state) : string * session_state :=
  let s1 := match system_prompt s with
            | None => initialize_conversation_context s
            | Some _ => s
            end in
  (match system_prompt s1 with Some p => p | None => "" end, s1).

(** The JSON payload posted to the provider (api_client.py 156-162) with
    the bearer credential of the request headers. *)
Record request : Type := Request {
  bearer : string;
  req_model : string;
  messages : list message;
  max_tokens : Z;
  temperature : float;
  stream : bool
}.

(** What [requests.post] and the decoding of its body come to. *)
Inductive http_reply : Type :=
| Body (choices : list (option string))
    (* a 2xx JSON body: choices[i].message.content, [None] for null;
       [[]] when "choices" is absent or empty *)
| RequestException (e : string)
| OtherException (e : string).

Record result : Type := Result {
  success : bool;
  res_content : option string;
  error : option string
}.

(** Truthiness of an optional string. *)
Definition truthy (s : option string) : bool :=
  match s with
  | Some c => negb (String.eqb c "")
  | None => false
  end.

(** The messages array of [generate_response] (api_client.py 136-154). *)
Definition build_messages (prompt : string)
    (history : option (list message)) (directive : option string)
  : list message :=
  (match directive with
   | Some p => if String.eqb p "" then [] else [Message "system" p]
   | None => []
   end)
  ++ (match history with
      | Some h => h
      | None => []
      end)
  ++ [Message "user" prompt].

Inductive exn : Type :=
| TypeError.

Inductive outcome (T : Type) : Type :=
| Returned (v : T)
| Raised (e : exn).

Arguments Returned {T} v.
Arguments Raised {T} e.

(** The dictionary returned by [generate_response_with_context], without
    its wall-clock field [response_time]. *)
Record response : Type := Response {
  rsp_success : bool;
  rsp_content : option string;
  rsp_error : option string;
  prompt_tokens : Z;
  response_tokens : Z;
  model : string
}.

(** The session together with the log of the payloads posted so far. *)
Record world : Type := World {
  session : session_state;
  sent : list request
}.

Section Provider.

Variable env : Router.environ.
Variable post : request -> http_reply.

(** [generate_response] (api_client.py 103-187). *)
Definition generate_response (prompt api_key : string)
    (history : option (list message)) (directive : option string)
    (log : list request) : result * list request :=
  let selected_model := Router.get_model_for_api_key env api_key in
  let data := Request api_key selected_model
                      (build_messages prompt history directive)
                      4000 0.9%float false in
  (match post data with
   | Body (c :: _) => Result true c None
   | Body [] => Result false None (Some "No response content received")
   | RequestException e => Result false None (Some ("Request error: " ++ e)%string)
   | OtherException e => Result false None (Some ("Unexpected error: " ++ e)%string)
   end,
   log ++ [data]).

(** [generate_response_with_context] (ai_features.py 45-88). *)
Definition generate_response_with_context (prompt api_key : string)
    (include_context streaming : bool) (w : world)
  : outcome response * world :=
  let s1 := add_message_to_context "user" prompt (session w) in
  let mdl := Router.get_model_for_api_key env api_key in
  if streaming then
    (Returned (Response false None
                 (Some "Streaming is not supported in generate_response_with_context")
                 (count_tokens prompt) 0 mdl),
     World s1 (sent w))
  else
    let '(res, s2, log) :=
      if include_context then
        let (context, sa) := get_conversation_context s1 in
        let (directive, sb) := get_system_prompt sa in
        let (r, l) := generate_response prompt api_key
                        (Some (removelast context)) (Some directive) (sent w) in
        (r, sb, l)
      else
        let (r, l) := generate_response prompt api_key None None (sent w) in
        (r, s1, l) in
    let s3 := if success res && truthy (res_content res)
              then add_message_to_context "assistant"
                     (match res_content res with Some c => c | None => "" end) s2
              else s2 in
    (* count_tokens(result.get("content", "")): the key is always present,
       so a null content reaches len() *)
    match res_content res with
    | Some c =>
        (Returned (Response (success res) (Some c) (error res)
                     (count_tokens prompt) (count_tokens c) mdl),
         World s3 log)
    | None => (Raised TypeError, World s3 log)
    end.

End Provider.

End Context.

(** ** Credentials: validation, selection, initialisation (api_client.py) *)

Module Credentials.

(** The loop of [validate_api_keys] (api_client.py 45-47): the first
    credential without the prefix ends it. *)
Fixpoint all_prefixed (api_keys : list string) : bool :=
  match api_keys with
  | [] => true
  | key :: rest =>
      if negb (String.prefix "sk-or-v1-" key) then false else all_prefixed rest
  end.

(** [validate_api_keys] (api_client.py 31-50). *)
Definition validate_api_keys (api_keys : list string) : bool :=
  match api_keys with
  | [] => false
  | _ :: _ =>
      if all_prefixed api_keys then (0 <? List.length api_keys)%nat else false
  end.

(** [get_random_api_key] (api_client.py 53-66).  [random.choice(seq)] is
    [seq[randbelow(len(seq))]]; [randbelow] is the generator's draw. *)
Definition get_random_api_key (randbelow : nat -> nat) (api_keys : list string)
  : option string :=
  match api_keys with
  | [] => None
  | _ :: _ => nth_error api_keys (randbelow (List.length api_keys))
  end.

(** The keys of [st.session_state] set up by [initialize_session_state]
    (utils.py 105-116); [None] when the key is not in the session. *)
Record app_session : Type := AppSession {
  authenticated : option bool;
  session_username : option string;
  api_keys : option (list string)
}.

Record session_info : Type := SessionInfo {
  info_authenticated : bool;
  info_username : string;
  api_keys_loaded : bool
}.

(** [get_session_info] (utils.py 128-139). *)
Definition get_session_info (s : app_session) : session_info :=
  SessionInfo
    (match authenticated s with Some b => b | None => false end)
    (match session_username s with Some u => u | None => "" end)
    (0 <? List.length (match api_keys s with Some l => l | None => [] end))%nat.

Inductive key_message : Type :=
| InvalidOrMissingKeys.

(** [initialize_api_keys] (api_client.py 190-209). *)
Definition initialize_api_keys (env : Router.environ) (s : app_session)
  : bool * app_session * list key_message :=
  let loaded := Router.load_api_keys env in
  if negb (validate_api_keys loaded)
  then (false, s, [InvalidOrMissingKeys])
  else (true, AppSession (authenticated s) (session_username s) (Some loaded), []).

(** [get_model_display_name] (utils.py 226-243). *)
Definition model_names : list (string * string) :=
  [ ("deepseek/deepseek-chat", "DeepSeek Chat");
    ("google/gemini-2.0-flash-exp:free", "Gemini 2.5 Pro");
    ("01-ai/yi-large", "Yi Large (Kimi K2)");
    ("qwen/qwen-2.5-72b-instruct", "Qwen 2.5 72B") ].

Fixpoint lookup (k : string) (d : list (string * string)) : option string :=
  match d with
  | [] => None
  | (k', v) :: r => if String.eqb k k' then Some v else lookup k r
  end.

Definition get_model_display_name (model : string) : string :=
  match lookup model model_names with
  | Some name => name
  | None => model
  end.

End Credentials.

(** ** Model comparison (ai_features.py) *)

Module Features.

Section Provider.

Variable env : Router.environ.
Variable post : Context.request -> Context.http_reply.

(** One round of the loop of [compare_models] (ai_features.py 94-123).
    The only exception that can reach the handler is the [TypeError] of
    [count_tokens] on a null content of a successful reply. *)
Definition compare_one (prompt api_key : string) (log : list Context.request)
  : Context.response * list Context.request :=
  let mdl := Router.get_model_for_api_key env api_key in
  let (result, log1) :=
    Context.generate_response env post prompt api_key None None log in
  (if Context.success result then
     match Context.res_content result with
     | Some c =>
         Context.Response true (Some c) (Context.error result)
           (count_tokens prompt) (count_tokens c) mdl
     | None =>
         Context.Response false None
           (Some "Error: object of type 'NoneType' has no len()")
           (count_tokens prompt) 0
           (Router.get_model_for_api_key env api_key)
     end
   else
     Context.Response (Context.success result) (Context.res_content result)
       (Context.error result) (count_tokens prompt) 0 mdl,
   log1).

(** [compare_models] (ai_features.py 91-124). *)
Fixpoint compare_models (prompt : string) (api_keys : list string)
    (log : list Context.request)
  : list Context.response * list Context.request :=
  match api_keys with
  | [] => ([], log)
  | api_key :: rest =>
      let (r, log1) := compare_one prompt api_key log in
      let (rs, log2) := compare_models prompt rest log1 in
      (r :: rs, log2)
  end.

End Provider.

End Features.

(** ** Conversation history files (analytics.py) *)

Module History.

(** [s.endswith(suffix)]. *)
Fixpoint ends_with (suffix s : string) : bool :=
  if String.eqb s suffix then true
  else match s with
       | EmptyString => false
       | String _ rest => ends_with suffix rest
       end.

(** The two readings of [datetime.now()] in [save_conversation]. *)
Record clock : Type := Clock {
  stamp : string;        (* strftime("%Y-%m-%d %H:%M:%S"), line 55 *)
  file_stamp : string    (* strftime("%Y%m%d_%H%M%S"), line 66 *)
}.

(** What one call meets in the history directory. *)
Record hio : Type := HIO {
  mkdir_ok : bool;             (* does os.makedirs succeed when it is needed *)
  hwrite : write_outcome       (* the write of the conversation file *)
}.

Inductive os_error : Type :=
| OSError.

Inductive history_message : Type :=
| ErrorLoadingConversation (filename : string).

Section Store.

Context {num : Type} (A : arith num).

(** A conversation file: the dictionary of analytics.py 53-63. *)
Record conversation_record : Type := ConversationRecord {
  timestamp : string;
  prompt : string;
  response : string;
  data : conversation_data num
}.

Inductive hfile : Type :=
| HDoc (c : conversation_record)
| HCorrupt.

(** The directory [conversation_history]: [None] when it does not exist,
    otherwise its files by name, in the order [os.listdir] reports them.
    User names are taken not to contain a path separator. *)
Definition history_dir : Type := option (list (string * hfile)).

(** Creating or overwriting a file. *)
Fixpoint put_file (name : string) (f : hfile) (files : list (string * hfile))
  : list (string * hfile) :=
  match files with
  | [] => [(name, f)]
  | (n, g) :: r =>
      if String.eqb n name then (n, f) :: r else (n, g) :: put_file name f r
  end.

(** [ensure_history_dir] (analytics.py 17-23); [None] when [os.makedirs]
    raises. *)
Definition ensure_history_dir (ok : bool) (h : history_dir)
  : option (list (string * hfile)) :=
  match h with
  | Some files => Some files
  | None => if ok then Some [] else None
  end.

(** The name of a conversation file inside the directory. *)
Definition file_name (user : string) (k : clock) : string :=
  (user ++ "_" ++ file_stamp k ++ ".json")%string.

Inductive saved : Type :=
| Saved (filename : string)
| Failed (e : os_error).

(** [save_conversation] (analytics.py 26-76).  Nothing in it catches the
    exceptions of the directory and file operations; [update_analytics]
    is reached only after the file was written. *)
Definition save_conversation (k : clock) (hi : hio) (e : io)
    (user prompt_text response_text mdl : string) (t : num) (ptok rtok : Z)
    (h : history_dir) (d : disk num)
  : saved * history_dir * disk num * list ui_message :=
  match ensure_history_dir (mkdir_ok hi) h with
  | None => (Failed OSError, h, d, [])
  | Some files =>
      let c := new_conversation_data user mdl t ptok rtok in
      let rec := ConversationRecord (stamp k) prompt_text response_text c in
      let name := file_name user k in
      match hwrite hi with
      | OpenFails => (Failed OSError, Some files, d, [])
      | DumpFails =>
          (Failed OSError, Some (put_file name HCorrupt files), d, [])
      | WriteOk =>
          let (d', msgs) := update_analytics A e c d in
          (Saved ("conversation_history/" ++ name)%string,
           Some (put_file name (HDoc rec) files), d', msgs)
      end
  end.

(** The test of analytics.py 179 on a file name. *)
Definition matches (user name : string) : bool :=
  String.prefix (user ++ "_")%string name && ends_with ".json" name.

(** The loop of [get_user_conversations] (analytics.py 178-185): files
    that cannot be loaded are reported and skipped. *)
Fixpoint read_matching (user : string) (files : list (string * hfile))
  : list conversation_record * list history_message :=
  match files with
  | [] => ([], [])
  | (name, f) :: r =>
      let (cs, ms) := read_matching user r in
      if matches user name then
        match f with
        | HDoc c => (c :: cs, ms)
        | HCorrupt => (cs, ErrorLoadingConversation name :: ms)
        end
      else (cs, ms)
  end.

(** [conversations.sort(key=lambda x: x["timestamp"], reverse=True)]:
    newest first by string comparison of the timestamps, stable. *)
Fixpoint insert_newest (x : conversation_record) (l : list conversation_record)
  : list conversation_record :=
  match l with
  | [] => [x]
  | y :: r =>
      if String.leb (timestamp y) (timestamp x)
      then x :: l else y :: insert_newest x r
  end.

Definition newest_first (l : list conversation_record)
  : list conversation_record :=
  fold_right insert_newest [] l.

(** [get_user_conversations] (analytics.py 163-190); [None] when the
    directory could not be created. *)
Definition get_user_conversations (ok : bool) (user : string) (h : history_dir)
  : option (list conversation_record * list history_message) * history_dir :=
  match ensure_history_dir ok h with
  | None => (None, h)
  | Some files =>
      let (cs, ms) := read_matching user files in
      (Some (newest_first cs, ms), Some files)
  end.

End Store.

Arguments conversation_record : clear implicits.
Arguments hfile : clear implicits.
Arguments history_dir : clear implicits.
Arguments HCorrupt {num}.

End History.

(** ** Authentication against the user table (auth.py) *)

Module Auth.

(** The built-in accounts. *)
Definition VALID_USERS : list (string * string) :=
  [ ("admin", "password123"); ("user", "user123");
    ("demo", "demo123"); ("test", "test123") ].

(** A data row of [users.csv] as [csv.DictReader] yields it.  The text
    layer of the [csv] library is not modelled: the file stands for its
    rows, and it has the header that [create_users_csv] writes. *)
Record user_row : Type := UserRow {
  row_username : string;
  row_password : string;
  registration_date : string;
  row_email : string
}.

(** [None]: [users.csv] does not exist. *)
Definition users_csv : Type := option (list user_row).

Inductive auth_message : Type :=
| ErrorCreatingUsersCsv
| ErrorLoadingUsers.

(** [users.get(k)] and [users[k] = v] on the username-to-password table. *)
Fixpoint get (k : string) (users : list (string * string)) : option string :=
  match users with
  | [] => None
  | (k', v) :: r => if String.eqb k k' then Some v else get k r
  end.

Fixpoint set (k v : string) (users : list (string * string))
  : list (string * string) :=
  match users with
  | [] => [(k, v)]
  | (k', v') :: r =>
      if String.eqb k k' then (k', v) :: r else (k', v') :: set k v r
  end.

(** [ensure_users_csv_exists] with [create_users_csv] (auth.py 22-42). *)
Definition ensure_users_csv_exists (create_ok : bool) (f : users_csv)
  : users_csv * list auth_message :=
  match f with
  | Some rows => (Some rows, [])
  | None => if create_ok then (Some [], []) else (None, [ErrorCreatingUsersCsv])
  end.

(** [load_users_from_csv] (auth.py 45-64): the rows are applied in file
    order on top of a copy of the built-in accounts.  A read that fails,
    fails when the file is opened. *)
Definition load_users_from_csv (create_ok can_read : bool) (f : users_csv)
  : list (string * string) * users_csv * list auth_message :=
  let (f1, m1) := ensure_users_csv_exists create_ok f in
  match f1, can_read with
  | Some rows, true =>
      (fold_left (fun users row => set (row_username row) (row_password row) users)
                 rows VALID_USERS,
       f1, m1)
  | _, _ => (VALID_USERS, f1, m1 ++ [ErrorLoadingUsers])
  end.

(** [user_exists] (auth.py 94-105) and [get_user_count] (183-191). *)
Definition user_exists (create_ok can_read : bool) (username : string)
    (f : users_csv) : bool :=
  match get username (fst (fst (load_users_from_csv create_ok can_read f))) with
  | Some _ => true
  | None => false
  end.

Definition get_user_count (create_ok can_read : bool) (f : users_csv) : Z :=
  Z.of_nat (List.length (fst (fst (load_users_from_csv create_ok can_read f)))).

(** [authenticate_user] (auth.py 194-209). *)
Definition authenticate_user (create_ok can_read : bool)
    (username password : string) (f : users_csv) : bool :=
  if String.eqb username "" || String.eqb password "" then false
  else
    match get username (fst (fst (load_users_from_csv create_ok can_read f))) with
    | Some stored => String.eqb stored password
    | None => false
    end.

End Auth.

(** ** Specification vocabulary *)

(** The arithmetic mean of a history of latencies, over the rationals;
    the mean of the empty history is 0. *)
Definition mean (l : list Q) : Q :=
  Qdiv (fold_right Qplus 0%Q l) (inject_Z (Z.of_nat (List.length l))).

(** The full-recompute oracle in the program's arithmetic:
    [sum(latencies) / len(latencies)] on doubles. *)
Definition naive_mean (l : list float) : float :=
  PrimFloat.div (fold_left PrimFloat.add l 0%float)
                (Binary64.of_int (Z.of_nat (List.length l))).

(** A double that is neither an infinity nor NaN. *)
Definition finite64 (x : float) : bool :=
  match Prim2SF x with
  | S754_zero _ | S754_finite _ _ _ => true
  | _ => false
  end.

(** The double [r] is finite and within relative error [u] of the exact
    value [q]. *)
Definition within (u : Q) (r : float) (q : Q) : bool :=
  finite64 r && Qle_bool (Qabs (Binary64.to_Q r - q)) (u * Qabs q).

(** The program's arithmetic with a record of its accuracy: every value
    carries a flag telling whether each operation that produced it returned
    a finite double within relative error [u] of the exact result on its
    operands, and each integer was converted exactly.  [round2] is not an
    operation of the recurrence; its result carries no such guarantee. *)
Module Checked.

Definition num : Type := (float * bool)%type.

Definition of_int (z : Z) : num :=
  let r := Binary64.of_int z in (r, within 0 r (inject_Z z)).

Definition op2 (u : Q) (f : float -> float -> float) (g : Q -> Q -> Q)
    (x y : num) : num :=
  let r := f (fst x) (fst y) in
  (r, snd x && snd y
      && within u r (g (Binary64.to_Q (fst x)) (Binary64.to_Q (fst y)))).

Definition ops (u : Q) : arith num :=
  Arith of_int
        (op2 u PrimFloat.add Qplus)
        (op2 u PrimFloat.mul Qmult)
        (op2 u PrimFloat.div Qdiv)
        (fun x => (Binary64.round2 (fst x), false)).

(** A latency enters a run as it is, flagged when it is finite. *)
Definition input (c : conversation_data float) : conversation_data num :=
  ConversationData (username c) (model c)
                   (response_time c, finite64 (response_time c))
                   (prompt_tokens c) (response_tokens c) (total_tokens c).

End Checked.

(** Every operation of the run of [update_analytics] over [cs] (from no
    persisted statistics, with every save succeeding) is accurate to
    relative error [u]: the run over the checked arithmetic ends with the
    flag of the stored average set. *)
Definition accurate (u : Q) (cs : list (conversation_data float)) : bool :=
  snd (avg_response_time
         (fst (load_analytics (Checked.ops u) true
                 (apply_all (Checked.ops u) (map Checked.input cs) None)))).

(** The exact values of the latencies passed in. *)
Definition latencies (cs : list (conversation_data float)) : list Q :=
  map (fun c => Binary64.to_Q (response_time c)) cs.


(** The statistics of a checked run without the flags. *)
Definition value_of (a : analytics Checked.num) : analytics float :=
  Analytics (total_conversations a) (stat_total_tokens a)
            (fst (avg_response_time a)) (model_usage a) (user_activity a).

(** The factor by which the relative rounding errors of [n] steps of the
    recurrence (three rounded operations each) can add up. *)
Definition growth (u : Q) (n : nat) : Q := ((1 + u) ^ Z.of_nat (3 * n))%Q.

(** Both count tables add up to the number of conversations. *)
Definition consistent {num : Type} (a : analytics num) : Prop :=
  sum_values (model_usage a) = total_conversations a /\
  sum_values (user_activity a) = total_conversations a.

(** Whatever a disk holds that [load_analytics] can return is consistent. *)
Definition disk_consistent {num : Type} (d : disk num) : Prop :=
  forall a, d = Some (Doc a) -> consistent a.

(** The statistics [a] account for [n] conversations whose latencies add up
    to [total]. *)
Definition tracks (a : analytics Q) (n : nat) (total : Q) : Prop :=
  total_conversations a = Z.of_nat n /\
  (avg_response_time a * inject_Z (Z.of_nat n) == total)%Q.

(** [out] is [items] sorted by descending count, equal counts in the order
    of [items]. *)
Definition stable_desc_sort (items out : list (string * Z)) : Prop :=
  Permutation items out /\
  StronglySorted (fun x y => snd y <= snd x) out /\
  forall c, filter (fun x => snd x =? c) out = filter (fun x => snd x =? c) items.

(** Two neighbouring messages of [l] are both user messages. *)
Definition consecutive_users (l : list Context.message) : Prop :=
  exists pre p q post,
    l = pre ++ Context.Message "user" p :: Context.Message "user" q :: post.

(** The context after the exchanges [(U1, A1), ..., (Un, An)], appended one
    message at a time to the empty session. *)
Definition after_exchanges (xs : list (string * string))
  : Context.session_state :=
  fold_left (fun s ua =>
               Context.add_message_to_context "assistant" (snd ua)
                 (Context.add_message_to_context "user" (fst ua) s))
            xs Context.empty_session.

(** [[U1, A1, ..., Un, An]]. *)
Definition transcript (xs : list (string * string)) : list Context.message :=
  flat_map (fun ua => [Context.Message "user" (fst ua);
                       Context.Message "assistant" (snd ua)]) xs.

(** The directive in force: the session's system prompt, or the default
    that [initialize_conversation_context] installs. *)
Definition directive_of (s : Context.session_state) : string :=
  match Context.system_prompt s with
  | Some p => p
  | None => "You are a helpful AI assistant."
  end.

(** The request the spec prescribes for an exchange started in session [s]:
    [[directive?] + history + [new user message]] with history included,
    the new user message alone without. *)
Definition expected_messages (s : Context.session_state) (prompt : string)
    (include_history : bool) : list Context.message :=
  if include_history
  then (if String.eqb (directive_of s) "" then []
        else [Context.Message "system" (directive_of s)])
       ++ Context.history_of s ++ [Context.Message "user" prompt]
  else [Context.Message "user" prompt].

Definition expected_request (env : Router.environ) (s : Context.session_state)
    (prompt api_key : string) (include_history : bool) : Context.request :=
  Context.Request api_key (Router.get_model_for_api_key env api_key)
                  (expected_messages s prompt include_history)
                  4000 0.9%float false.

(** What a provider reply adds to the context after the user message. *)
Definition appended_reply (r : Context.http_reply) : list Context.message :=
  match r with
  | Context.Body (Some c :: _) =>
      if String.eqb c "" then [] else [Context.Message "assistant" c]
  | _ => []
  end.

(** The call came back with [success = True]. *)
Definition successful (r : Context.http_reply) : bool :=
  match r with
  | Context.Body (_ :: _) => true
  | _ => false
  end.

Definition message_eq_dec (a b : Context.message) : {a = b} + {a <> b}.
Proof.
  decide equality; apply string_dec.
Defined.

(** The number of conversations in [cs] whose field [f] is [k]. *)
Definition occurrences {num : Type} (f : conversation_data num -> string)
    (k : string) (cs : list (conversation_data num)) : Z :=
  Z.of_nat (List.length (filter (fun c => String.eqb (f c) k) cs)).

(** The tokens of all conversations in [cs]. *)
Definition tokens_of {num : Type} (cs : list (conversation_data num)) : Z :=
  fold_right Z.add 0 (map (@total_tokens num) cs).

(** A counting table as the program builds it: distinct keys, counts of at
    least one. *)
Definition well_formed_table (d : dict) : Prop :=
  NoDup (map fst d) /\ Forall (fun kv => 1 <= snd kv) d.

(** Whatever a disk holds that [load_analytics] can return has well-formed
    tables and a count that is not negative. *)
Definition disk_well_formed {num : Type} (d : disk num) : Prop :=
  forall a, d = Some (Doc a) ->
    well_formed_table (model_usage a) /\ well_formed_table (user_activity a) /\
    0 <= total_conversations a.

(** Every stored message is a user or an assistant message. *)
Definition dialogue_only (l : list Context.message) : Prop :=
  Forall (fun m => Context.role m = "user" \/ Context.role m = "assistant") l.

(** One call of [generate_response_with_context]. *)
Record call : Type := Call {
  call_prompt : string;
  call_key : string;
  call_include : bool;
  call_streaming : bool
}.

(** The world after a sequence of calls, whatever each returned or raised. *)
Definition after_calls (env : Router.environ)
    (post : Context.request -> Context.http_reply)
    (calls : list call) (w : Context.world) : Context.world :=
  fold_left (fun w c =>
               snd (Context.generate_response_with_context env post
                      (call_prompt c) (call_key c)
                      (call_include c) (call_streaming c) w))
            calls w.

(** [l1] is an initial segment of [l2]. *)
Definition initial_segment {T : Type} (l1 l2 : list T) : Prop :=
  exists rest, l2 = l1 ++ rest.

(** The distinct elements of [l] in the order of their first occurrence. *)
Definition first_uses (l : list string) : list string :=
  fold_left (fun seen k =>
               if existsb (String.eqb k) seen then seen else seen ++ [k])
            l [].

(** The password of the last row of [rows] for [username], if any. *)
Fixpoint last_row_password (username : string) (rows : list Auth.user_row)
  : option string :=
  match rows with
  | [] => None
  | row :: rest =>
      match last_row_password username rest with
      | Some p => Some p
      | None => if String.eqb username (Auth.row_username row)
                then Some (Auth.row_password row) else None
      end
  end.

(** * Properties *)

(** ** Counting tables *)

Lemma sum_values_dict_set_fresh (k : string) (v : Z) (d : dict) :
  dict_get k d = None -> sum_values (dict_set k v d) = sum_values d + v.
Proof.
  unfold sum_values, dict_values.
  induction d as [|[k' v'] r IH]; simpl; intros H.
  - lia.
  - destruct (String.eqb k k'); [discriminate|].
    simpl. rewrite IH by assumption. lia.
Qed.

Lemma sum_values_dict_set_present (k : string) (v w : Z) (d : dict) :
  dict_get k d = Some w -> sum_values (dict_set k v d) = sum_values d - w + v.
Proof.
  unfold sum_values, dict_values.
  induction d as [|[k' v'] r IH]; simpl; intros H.
  - discriminate.
  - destruct (String.eqb k k').
    + injection H as ->. simpl. lia.
    + simpl. rewrite IH by assumption. lia.
Qed.

Lemma sum_values_count_one (k : string) (d : dict) :
  sum_values (count_one k d) = sum_values d + 1.
Proof.
  unfold count_one.
  destruct (dict_get k d) as [w|] eqn:E.
  - rewrite sum_values_dict_set_present with (w := w) by exact E. lia.
  - now rewrite sum_values_dict_set_fresh.
Qed.

Section AnalyticsFacts.

Context {num : Type} (A : arith num).

Lemma consistent_default : consistent (default_analytics A).
Proof. split; reflexivity. Qed.

Lemma consistent_record_conversation (c : conversation_data num) (a : analytics num) :
  consistent a -> consistent (record_conversation A c a).
Proof.
  intros [Hm Hu]. split; simpl; rewrite sum_values_count_one; lia.
Qed.

Lemma consistent_load (r : bool) (d : disk num) :
  disk_consistent d -> consistent (fst (load_analytics A r d)).
Proof.
  intros H. destruct d as [[a|]|]; destruct r; simpl;
    try apply consistent_default.
  now apply H.
Qed.

Lemma disk_consistent_update (e : io) (c : conversation_data num) (d : disk num) :
  disk_consistent d -> disk_consistent (fst (update_analytics A e c d)).
Proof.
  intros H. unfold update_analytics.
  pose proof (consistent_load (readable e) H) as Hl.
  destruct (load_analytics A (readable e) d) as [a m1]. simpl in Hl.
  destruct (write e); simpl.
  - intros a' Ha'. injection Ha' as <-.
    now apply consistent_record_conversation.
  - exact H.
  - intros a' Ha'. discriminate.
Qed.

Lemma disk_consistent_run (evs : list (io * conversation_data num)) (d : disk num) :
  disk_consistent d -> disk_consistent (run_updates A evs d).
Proof.
  revert d. induction evs as [|[e c] r IH]; simpl; intros d H.
  - exact H.
  - apply IH. now apply disk_consistent_update.
Qed.

End AnalyticsFacts.

(** C2.  Starting from no persisted statistics, after any sequence of
    [update_analytics] calls (whatever the file system does at each call),
    the statistics that [load_analytics] returns satisfy
    [sum(model_usage.values()) == total_conversations] and
    [sum(user_activity.values()) == total_conversations]. *)
Theorem usage_counts_sum_to_total :
  forall (num : Type) (A : arith num)
         (evs : list (io * conversation_data num)) (can_read : bool),
    let a := fst (load_analytics A can_read (run_updates A evs None)) in
    sum_values (model_usage a) = total_conversations a /\
    sum_values (user_activity a) = total_conversations a.
Proof.
  intros num A evs can_read a.
  apply (consistent_load A can_read).
  apply disk_consistent_run.
  intros a' Ha'. discriminate.
Qed.

(** ** The running average *)

Lemma inject_Z_succ_nonzero (n : nat) : ~ (inject_Z (Z.of_nat (S n)) == 0)%Q.
Proof.
  unfold Qeq. simpl. lia.
Qed.

Lemma tracks_record_conversation (c : conversation_data Q) (a : analytics Q)
    (n : nat) (total : Q) :
  tracks a n total ->
  tracks (record_conversation Exact.ops c a) (S n) (total + response_time c)%Q.
Proof.
  intros [Hn Havg]. split.
  - simpl. lia.
  - cbn [record_conversation avg_response_time Exact.ops div add mul of_int].
    rewrite Hn.
    replace (Z.of_nat n + 1 - 1) with (Z.of_nat n) by lia.
    replace (Z.of_nat n + 1) with (Z.of_nat (S n)) by lia.
    rewrite <- Havg.
    field. apply inject_Z_succ_nonzero.
Qed.

Lemma load_after_update_ok (c : conversation_data Q) (d : disk Q) :
  fst (load_analytics Exact.ops true (fst (update_analytics Exact.ops io_ok c d)))
  = record_conversation Exact.ops c (fst (load_analytics Exact.ops true d)).
Proof.
  unfold update_analytics. simpl readable. simpl write.
  destruct (load_analytics Exact.ops true d) as [a m]. reflexivity.
Qed.

Lemma tracks_apply_all (cs : list (conversation_data Q)) :
  forall (d : disk Q) (n : nat) (total : Q),
    tracks (fst (load_analytics Exact.ops true d)) n total ->
    tracks (fst (load_analytics Exact.ops true (apply_all Exact.ops cs d)))
           (n + List.length cs)
           (total + fold_right Qplus 0%Q (map (@response_time Q) cs))%Q.
Proof.
  induction cs as [|c r IH]; intros d n total H.
  - simpl. rewrite Nat.add_0_r. destruct H as [Hn Ha]. split; [exact Hn|].
    rewrite Ha. ring.
  - unfold apply_all. simpl map. cbn [run_updates].
    fold (apply_all Exact.ops r (fst (update_analytics Exact.ops io_ok c d))).
    pose proof (tracks_record_conversation c H) as H1.
    rewrite <- load_after_update_ok in H1.
    specialize (IH _ _ _ H1).
    simpl List.length. rewrite Nat.add_succ_r.
    destruct IH as [IHn IHa]. split; [exact IHn|].
    rewrite IHa. cbn [fold_right]. ring.
Qed.

(** The recurrence read in exact rational arithmetic, on a file system
    that does not fail and starting from no persisted statistics: after
    every sequence of [update_analytics] calls the stored
    [avg_response_time] equals the arithmetic mean of all latencies passed
    in, that is, the incremental recurrence agrees with a full recompute. *)
Theorem exact_average_is_mean :
  forall cs : list (conversation_data Q),
    (avg_response_time
       (fst (load_analytics Exact.ops true (apply_all Exact.ops cs None)))
     == mean (map (@response_time Q) cs))%Q.
Proof.
  intros cs.
  assert (H0 : tracks (fst (load_analytics Exact.ops true None)) 0 0%Q).
  { split; [reflexivity|]. simpl. ring. }
  destruct (@tracks_apply_all cs None 0%nat 0%Q H0) as [_ Ha].
  unfold mean. rewrite length_map.
  destruct cs as [|c r].
  - reflexivity.
  - simpl Nat.add in Ha.
    set (N := inject_Z (Z.of_nat (List.length (c :: r)))) in *.
    set (x := avg_response_time _) in *.
    set (t := fold_right Qplus 0%Q _) in *.
    assert (Ht : (t == x * N)%Q).
    { transitivity (0 + t)%Q; [ring | symmetry; exact Ha]. }
    rewrite Ht. field. apply inject_Z_succ_nonzero.
Qed.

(** *** The running average on doubles *)

Section Runs.

Context {num : Type} (A : arith num).

(** On a file system that does not fail, a run is a left fold of
    [record_conversation] over what the disk held at the start. *)
Lemma loaded_apply_all (cs : list (conversation_data num)) :
  forall d : disk num,
    fst (load_analytics A true (apply_all A cs d))
    = fold_left (fun a c => record_conversation A c a) cs
                (fst (load_analytics A true d)).
Proof.
  induction cs as [|c r IH]; intros d.
  - reflexivity.
  - unfold apply_all. cbn [map run_updates fold_left].
    fold (apply_all A r (fst (update_analytics A io_ok c d))).
    rewrite IH. f_equal.
    unfold update_analytics. cbn [readable write io_ok].
    destruct (load_analytics A true d) as [a m]. reflexivity.
Qed.

End Runs.

(** The checked arithmetic computes the program's doubles. *)
Lemma value_of_record (u : Q) (c : conversation_data float)
    (a : analytics Checked.num) :
  value_of (record_conversation (Checked.ops u) (Checked.input c) a)
  = record_conversation Binary64.ops c (value_of a).
Proof. reflexivity. Qed.

Lemma value_of_run (u : Q) (cs : list (conversation_data float)) :
  forall a : analytics Checked.num,
    value_of (fold_left (fun a c => record_conversation (Checked.ops u) c a)
                        (map Checked.input cs) a)
    = fold_left (fun a c => record_conversation Binary64.ops c a) cs (value_of a).
Proof.
  induction cs as [|c r IH]; intros a.
  - reflexivity.
  - cbn [map fold_left]. rewrite IH, value_of_record. reflexivity.
Qed.

Lemma Qabs_bound (x y : Q) : (Qabs x <= y <-> - y <= x /\ x <= y)%Q.
Proof. apply Qabs_Qle_condition. Qed.

(** What the flags say. *)
Lemma within_spec (u : Q) (r : float) (q : Q) :
  within u r q = true ->
  finite64 r = true /\ (Qabs (Binary64.to_Q r - q) <= u * Qabs q)%Q.
Proof.
  unfold within. intros H. apply andb_prop in H. destruct H as [F B].
  split; [exact F|]. now apply Qle_bool_iff.
Qed.

Lemma within_exact (r : float) (q : Q) :
  within 0 r q = true -> (Binary64.to_Q r == q)%Q.
Proof.
  intros H. apply within_spec in H. destruct H as [_ B].
  apply Qabs_bound in B. lra.
Qed.

Lemma op2_spec (u : Q) (f : float -> float -> float) (g : Q -> Q -> Q)
    (x y : Checked.num) :
  snd (Checked.op2 u f g x y) = true ->
  snd x = true /\ snd y = true /\
  finite64 (f (fst x) (fst y)) = true /\
  (Qabs (Binary64.to_Q (f (fst x) (fst y))
         - g (Binary64.to_Q (fst x)) (Binary64.to_Q (fst y)))
   <= u * Qabs (g (Binary64.to_Q (fst x)) (Binary64.to_Q (fst y))))%Q.
Proof.
  unfold Checked.op2. cbn [snd]. intros H.
  apply andb_prop in H. destruct H as [H W].
  apply andb_prop in H. destruct H as [Hx Hy].
  apply within_spec in W. tauto.
Qed.

(** One step of the recurrence whose flag is set: the three rounded
    operations are accurate to [u], and so were all the steps before. *)
Lemma checked_step (u : Q) (c : conversation_data float)
    (a : analytics Checked.num) (n : nat) :
  total_conversations a = Z.of_nat n ->
  let a' := record_conversation (Checked.ops u) (Checked.input c) a in
  let N := inject_Z (Z.of_nat n) in
  let A := Binary64.to_Q (fst (avg_response_time a)) in
  let A' := Binary64.to_Q (fst (avg_response_time a')) in
  let X := Binary64.to_Q (response_time c) in
  snd (avg_response_time a') = true ->
  snd (avg_response_time a) = true /\
  finite64 (fst (avg_response_time a')) = true /\
  exists P S : Q,
    (Qabs (P - A * N) <= u * Qabs (A * N))%Q /\
    (Qabs (S - (P + X)) <= u * Qabs (P + X))%Q /\
    (Qabs ((N + 1) * A' - S) <= u * Qabs S)%Q.
Proof.
  intros Hn a' N A A' X H. unfold A', a' in *. clear A' a'.
  cbn [record_conversation avg_response_time] in *.
  rewrite Hn in *.
  replace (Z.of_nat n + 1 - 1) with (Z.of_nat n) in * by lia.
  change (div (Checked.ops u)) with (Checked.op2 u PrimFloat.div Qdiv) in *.
  change (add (Checked.ops u)) with (Checked.op2 u PrimFloat.add Qplus) in *.
  change (mul (Checked.ops u)) with (Checked.op2 u PrimFloat.mul Qmult) in *.
  change (of_int (Checked.ops u)) with Checked.of_int in *.
  change (response_time (Checked.input c))
    with (response_time c, finite64 (response_time c)) in *.
  apply op2_spec in H. destruct H as (Hs & Hk & Fd & Bd).
  apply op2_spec in Hs. destruct Hs as (Hp & _ & _ & Bs).
  apply op2_spec in Hp. destruct Hp as (Ha & Hk1 & _ & Bp).
  cbn [Checked.of_int Checked.op2 fst snd] in *.
  apply within_exact in Hk, Hk1.
  set (p := PrimFloat.mul _ _) in *.
  set (s := PrimFloat.add p _) in *.
  set (r := PrimFloat.div s _) in *.
  split; [exact Ha|]. split; [exact Fd|].
  exists (Binary64.to_Q p), (Binary64.to_Q s).
  fold A in Bp. fold X in Bs.
  assert (EN : (inject_Z (Z.of_nat n + 1) == N + 1)%Q).
  { unfold N. rewrite inject_Z_plus. reflexivity. }
  rewrite Hk1 in Bp. fold N in Bp.
  rewrite Hk, EN in Bd.
  split; [exact Bp|]. split; [exact Bs|].
  assert (N0 : (0 <= N)%Q).
  { unfold N. change 0%Q with (inject_Z 0). rewrite <- Zle_Qle. lia. }
  assert (N1 : ~ (N + 1 == 0)%Q) by lra.
  assert (E1 : ((N + 1) * Binary64.to_Q r - Binary64.to_Q s
                == (N + 1) * (Binary64.to_Q r - Binary64.to_Q s / (N + 1)))%Q)
    by (field; exact N1).
  assert (E2 : (Binary64.to_Q s == (N + 1) * (Binary64.to_Q s / (N + 1)))%Q)
    by (field; exact N1).
  rewrite E1. rewrite E2 at 2. rewrite !Qabs_Qmult.
  rewrite (Qabs_pos (N + 1)) by lra.
  revert Bd.
  generalize (Qabs (Binary64.to_Q r - Binary64.to_Q s / (N + 1)))
             (Qabs (Binary64.to_Q s / (N + 1))).
  clear - N0. intros x y B. nra.
Qed.

Section Propagation.

Local Open Scope Q_scope.

(** Propagation of the rounding errors through one step, over the
    rationals: [P], [S] and [A'] stand for the rounded product, sum and
    quotient, [T] for the sum of the latencies so far. *)
Lemma step_bound (u M c n A P S A' X T : Q) :
  0 <= u -> 0 <= M -> 1 <= c -> 0 <= n ->
  Qabs A <= c * M ->
  Qabs (n * A - T) <= n * (c - 1) * M ->
  Qabs X <= M ->
  Qabs (P - A * n) <= u * Qabs (A * n) ->
  Qabs (S - (P + X)) <= u * Qabs (P + X) ->
  Qabs ((n + 1) * A' - S) <= u * Qabs S ->
  Qabs A' <= (1 + u) * (1 + u) * (1 + u) * c * M /\
  Qabs ((n + 1) * A' - (T + X))
  <= (n + 1) * ((1 + u) * (1 + u) * (1 + u) * c - 1) * M.
Proof.
  intros Hu HM Hc Hn HA HT HX HP HS HA'.
  assert (B1 : Qabs (A * n) <= n * c * M).
  { rewrite Qabs_Qmult. rewrite (Qabs_pos n) by exact Hn.
    pose proof (Qabs_nonneg A) as N. revert HA N.
    generalize (Qabs A). clear - Hn. intros a HA N. nra. }
  assert (HP' : Qabs (P - A * n) <= u * (n * c * M)).
  { revert HP B1. generalize (Qabs (P - A * n)) (Qabs (A * n)).
    clear - Hu. intros; nra. }
  assert (B2 : Qabs (P + X) <= (1 + u) * c * M * (n + 1)).
  { apply Qabs_bound. apply Qabs_bound in HP', HX.
    clear - HP' HX B1 Hu HM Hc Hn.
    apply Qabs_bound in B1.
    assert (0 <= c * M) by nra.
    assert (0 <= n * (c * M)) by nra.
    assert (0 <= u * (c * M)) by nra.
    assert (0 <= u * (n * (c * M))) by nra.
    split; nra. }
  assert (HS' : Qabs (S - (P + X)) <= u * ((1 + u) * c * M * (n + 1))).
  { revert HS B2. generalize (Qabs (S - (P + X))) (Qabs (P + X)).
    clear - Hu. intros; nra. }
  assert (B3 : Qabs S <= (1 + u) * (1 + u) * c * M * (n + 1)).
  { apply Qabs_bound. apply Qabs_bound in HS', B2.
    clear - HS' B2 Hu HM Hc Hn.
    assert (0 <= c * M ) by nra.
    assert (0 <= n * (c * M)) by nra.
    assert (0 <= u * (c * M)) by nra.
    assert (0 <= u * (n * (c * M))) by nra.
    assert (0 <= u * (u * (c * M))) by nra.
    assert (0 <= u * (u * (n * (c * M)))) by nra.
    split; nra. }
  assert (HA2 : Qabs ((n + 1) * A' - S) <= u * ((1 + u) * (1 + u) * c * M * (n + 1))).
  { revert HA' B3. generalize (Qabs ((n + 1) * A' - S)) (Qabs S).
    clear - Hu. intros; nra. }
  apply Qabs_bound in HA2, B3, HS', B2, HP', B1, HT, HX.
  clear HA' HS HP HA.
  assert (0 <= c * M) by nra.
  assert (0 <= u * (c * M)) by nra.
  assert (0 <= u * (u * (c * M))) by nra.
  assert (0 <= u * (u * (u * (c * M)))) by nra.
  assert (0 <= n * (c * M)) by nra.
  assert (0 <= u * (n * (c * M))) by nra.
  assert (0 <= u * (u * (n * (c * M)))) by nra.
  assert (0 <= u * (u * (u * (n * (c * M))))) by nra.
  assert (Hn1 : 0 < n + 1) by lra.
  split; apply Qabs_bound.
  - set (W := (1 + u) * (1 + u) * (1 + u) * c * M).
    assert (U : (n + 1) * A' <= (n + 1) * W) by (unfold W; nra).
    assert (L : (n + 1) * (- W) <= (n + 1) * A') by (unfold W; nra).
    split.
    + apply (Qmult_le_l _ _ (n + 1)); assumption.
    + apply (Qmult_le_l _ _ (n + 1)); assumption.
  - split; nra.
Qed.

Lemma growth_succ (u : Q) (n : nat) :
  0 <= u ->
  growth u (S n) == (1 + u) * (1 + u) * (1 + u) * growth u n.
Proof.
  intros Hu. unfold growth.
  replace (Z.of_nat (3 * S n)) with (3 + Z.of_nat (3 * n))%Z by lia.
  rewrite Qpower_plus by lra.
  change ((1 + u) ^ 3) with ((1 + u) * ((1 + u) * (1 + u))). ring.
Qed.

Lemma growth_ge_1 (u : Q) (n : nat) : 0 <= u -> 1 <= growth u n.
Proof.
  intros Hu. induction n as [|n IH].
  - unfold growth. simpl. lra.
  - rewrite growth_succ by exact Hu.
    assert (0 <= u * growth u n) by nra.
    assert (0 <= u * (u * growth u n)) by nra.
    assert (0 <= u * (u * (u * growth u n))) by nra.
    nra.
Qed.

Lemma sum_snoc (l : list Q) (x : Q) :
  fold_right Qplus 0 (l ++ [x]) == fold_right Qplus 0 l + x.
Proof.
  induction l as [|y l IH]; simpl.
  - ring.
  - rewrite IH. ring.
Qed.

End Propagation.

(** The invariant of an accurate run. *)
Lemma checked_run_bounds (u M : Q) (cs : list (conversation_data float)) :
  (0 <= u)%Q -> (0 <= M)%Q ->
  (forall c, In c cs -> (Qabs (Binary64.to_Q (response_time c)) <= M)%Q) ->
  let a := fold_left (fun a c => record_conversation (Checked.ops u) c a)
                     (map Checked.input cs)
                     (default_analytics (Checked.ops u)) in
  let N := inject_Z (Z.of_nat (List.length cs)) in
  let A := Binary64.to_Q (fst (avg_response_time a)) in
  total_conversations a = Z.of_nat (List.length cs) /\
  (snd (avg_response_time a) = true ->
   finite64 (fst (avg_response_time a)) = true /\
   (Qabs A <= growth u (List.length cs) * M)%Q /\
   (Qabs (N * A - fold_right Qplus 0%Q (latencies cs))
    <= N * (growth u (List.length cs) - 1) * M)%Q).
Proof.
  intros Hu HM. induction cs as [|c cs IH] using rev_ind; intros HX.
  - cbv zeta. cbn [map fold_left List.length default_analytics
                    total_conversations avg_response_time].
    split; [reflexivity|]. intros _.
    split; [vm_compute; reflexivity|].
    assert (E : (Binary64.to_Q (fst (of_int (Checked.ops u) 0)) == 0)%Q)
      by (vm_compute; reflexivity).
    rewrite E. unfold growth.
    change ((1 + u) ^ Z.of_nat (3 * 0))%Q with 1%Q.
    change (inject_Z (Z.of_nat 0)) with 0%Q.
    cbn [latencies map fold_right].
    split; apply Qabs_bound; split; lra.
  - cbv zeta in IH |- *.
    rewrite map_app, fold_left_app. cbn [map fold_left].
    rewrite length_app. cbn [List.length].
    replace (List.length cs + 1)%nat with (S (List.length cs)) by lia.
    set (a := fold_left _ (map Checked.input cs) _) in *.
    destruct IH as [Hn IH].
    { intros c' Hc'. apply HX. apply in_or_app. now left. }
    split.
    { cbn [record_conversation total_conversations]. rewrite Hn. lia. }
    intros Hflag.
    destruct (@checked_step u c a _ Hn Hflag) as (Ha & Hfin & qp & qs & BP & BS & BA).
    destruct (IH Ha) as (_ & IA & IT).
    split; [exact Hfin|].
    assert (HXc : (Qabs (Binary64.to_Q (response_time c)) <= M)%Q).
    { apply HX. apply in_or_app. right. now left. }
    assert (N0 : (0 <= inject_Z (Z.of_nat (List.length cs)))%Q).
    { change 0%Q with (inject_Z 0). rewrite <- Zle_Qle. lia. }
    assert (Hc1 := @growth_ge_1 u (List.length cs) Hu).
    assert (IA' : (Qabs (Binary64.to_Q (fst (avg_response_time a)))
                   <= growth u (List.length cs) * M)%Q) by exact IA.
    destruct (@step_bound u M _ _ _ _ _ _ _ _ Hu HM Hc1 N0 IA' IT HXc BP BS BA)
      as [R1 R2].
    assert (EN : (inject_Z (Z.of_nat (S (List.length cs)))
                  == inject_Z (Z.of_nat (List.length cs)) + 1)%Q).
    { rewrite Nat2Z.inj_succ. unfold Z.succ. rewrite inject_Z_plus. reflexivity. }
    assert (ES : (fold_right Qplus 0 (latencies (cs ++ [c]))
                  == fold_right Qplus 0 (latencies cs)
                     + Binary64.to_Q (response_time c))%Q).
    { unfold latencies. rewrite map_app. cbn [map]. apply sum_snoc. }
    rewrite growth_succ by exact Hu.
    rewrite EN, ES. split; [exact R1 | exact R2].
Qed.

(** C1.  The program computes on doubles.  On a file system that does not
    fail, and starting from no persisted statistics: whenever every
    operation of the recurrence [((old_avg * (n - 1)) + new_time) / n] in
    the run returns a finite double within relative error [u] of the exact
    result, the counts being converted exactly, the stored
    [avg_response_time] after the run is finite and differs from the
    arithmetic mean of all latencies passed in by at most
    [((1 + u) ^ (3 * n) - 1) * M], where [n] is the number of records and
    [M] bounds the latencies in absolute value.  With [u = 0], that is when
    no operation rounds, the stored average is the mean exactly. *)
Theorem binary64_average_within_tolerance :
  forall (u M : Q) (cs : list (conversation_data float)),
    (0 <= u)%Q ->
    (forall c, In c cs -> (Qabs (Binary64.to_Q (response_time c)) <= M)%Q) ->
    accurate u cs = true ->
    let stored :=
      avg_response_time
        (fst (load_analytics Binary64.ops true
                (apply_all Binary64.ops cs None))) in
    finite64 stored = true /\
    (Qabs (Binary64.to_Q stored - mean (latencies cs))
     <= ((1 + u) ^ Z.of_nat (3 * List.length cs) - 1) * M)%Q /\
    ((u == 0)%Q -> (Binary64.to_Q stored == mean (latencies cs))%Q).
Proof.
  intros u M cs Hu HX Hacc stored.
  assert (Hgoal :
    finite64 stored = true /\
    (Qabs (Binary64.to_Q stored - mean (latencies cs))
     <= (growth u (List.length cs) - 1) * M)%Q).
  { unfold accurate in Hacc. rewrite loaded_apply_all in Hacc.
    unfold stored. rewrite loaded_apply_all. cbn [load_analytics fst] in *.
    change (default_analytics Binary64.ops)
      with (value_of (default_analytics (Checked.ops u))).
    rewrite <- (value_of_run u).
    destruct cs as [|c0 cs0].
    - split; [vm_compute; reflexivity|].
      apply Qabs_bound. split; vm_compute; discriminate.
    - assert (HM : (0 <= M)%Q).
      { apply Qle_trans with (2 := HX c0 (or_introl eq_refl)).
        apply Qabs_nonneg. }
      set (cs := c0 :: cs0) in *.
      destruct (@checked_run_bounds u M cs Hu HM HX) as [_ HB].
      cbv zeta in HB. destruct (HB Hacc) as (Hfin & _ & HT). clear HB.
      cbn [value_of avg_response_time].
      set (a := fold_left _ (map Checked.input cs) _) in *.
      split; [exact Hfin|].
      unfold mean. unfold latencies at 2. rewrite length_map.
      set (N := inject_Z (Z.of_nat (List.length cs))) in *.
      set (T := fold_right Qplus 0%Q (latencies cs)) in *.
      set (A := Binary64.to_Q (fst (avg_response_time a))) in *.
      assert (N1 : (0 < N)%Q).
      { unfold N, cs. change 0%Q with (inject_Z 0). rewrite <- Zlt_Qlt.
        cbn [List.length]. lia. }
      assert (E : (N * A - T == N * (A - T / N))%Q) by (field; lra).
      rewrite E, Qabs_Qmult, (Qabs_pos N) in HT by lra.
      revert HT. generalize (Qabs (A - T / N)) (growth u (List.length cs)).
      intros x g HT.
      apply (Qmult_le_l _ _ N); [exact N1|].
      apply Qle_trans with (1 := HT). apply Qle_lteq. right. ring. }
  destruct Hgoal as [Hfin Hb]. split; [exact Hfin|]. split; [exact Hb|].
  intros Hu0.
  assert (G : (growth u (List.length cs) == 1)%Q).
  { unfold growth. assert (E1 : (1 + u == 1)%Q) by lra.
    rewrite E1. apply Qpower_1. }
  rewrite G in Hb. apply Qabs_bound in Hb. lra.
Qed.

(** Three exchanges of 0.1 s: every operation is accurate to [2 ^ -53], so
    the stored average is within [((1 + 2 ^ -53) ^ 9 - 1) * 0.1] of the
    mean. *)
Lemma binary64_average_within_tolerance_witness :
  let cs := map (fun t => new_conversation_data "ann" "m" t 3 5)
                [0.1; 0.1; 0.1]%float in
  let u := (1 # 9007199254740992)%Q in
  let stored :=
    avg_response_time
      (fst (load_analytics Binary64.ops true
              (apply_all Binary64.ops cs None))) in
  accurate u cs = true /\
  (Qabs (Binary64.to_Q stored - mean (latencies cs))
   <= ((1 + u) ^ 9 - 1) * Binary64.to_Q 0.1)%Q.
Proof.
  intros cs u stored.
  assert (Hacc : accurate u cs = true) by (vm_compute; reflexivity).
  split; [exact Hacc|].
  assert (Hu : (0 <= u)%Q) by (unfold u, Qle; simpl; lia).
  assert (HX : forall c, In c cs ->
                 (Qabs (Binary64.to_Q (response_time c))
                  <= Binary64.to_Q 0.1)%Q).
  { intros c [<-|[<-|[<-|[]]]]; vm_compute; discriminate. }
  exact (proj1 (proj2 (@binary64_average_within_tolerance
                         u (Binary64.to_Q 0.1) cs Hu HX Hacc))).
Defined.

(** The program itself computes on doubles.  Three exchanges that each took
    0.1 s (the double nearest to 0.1) have mean exactly that double, yet the
    stored average is the next double up; and on the latencies
    0.5, 0.2, 0.1, 0.1 the stored average differs from what a full recompute
    [sum / len] yields in the same arithmetic.  Two exchanges of 1e308 s
    have mean 1e308, yet the sum overflows and the store holds infinity.
    Independently of rounding, a record whose snapshot could not be written
    is missing from the average: latencies 1 and 3 with the first save
    failing store 3, not 2. *)
Lemma binary64_average_is_not_mean :
  let stored (ls : list float) :=
    avg_response_time
      (fst (load_analytics Binary64.ops true
              (apply_all Binary64.ops
                 (map (fun t => new_conversation_data "ann" "m" t 3 5) ls)
                 None))) in
  let lossy :=
    avg_response_time
      (fst (load_analytics Exact.ops true
              (run_updates Exact.ops
                 [(IO true OpenFails, new_conversation_data "ann" "m" 1%Q 3 5);
                  (io_ok, new_conversation_data "ann" "m" 3%Q 3 5)]
                 None))) in
  stored [0.1; 0.1; 0.1]%float <> 0.1%float /\
  ~ (Binary64.to_Q (stored [0.1; 0.1; 0.1]%float)
     == mean (map Binary64.to_Q [0.1; 0.1; 0.1]%float))%Q /\
  stored [0.5; 0.2; 0.1; 0.1]%float <> naive_mean [0.5; 0.2; 0.1; 0.1]%float /\
  stored [1e308; 1e308]%float = infinity /\
  ~ (lossy == mean [1; 3])%Q.
Proof.
  cbv zeta. split; [|split; [|split; [|split]]].
  - intros H. apply (f_equal Prim2SF) in H. vm_compute in H. discriminate.
  - intros H. vm_compute in H. discriminate.
  - intros H. apply (f_equal Prim2SF) in H. vm_compute in H. discriminate.
  - vm_compute. reflexivity.
  - intros H. vm_compute in H. discriminate.
Qed.

(** The end-to-end scenario of the specification, on doubles: three
    exchanges of 1, 2 and 3 seconds on one model by three users. *)
Example three_records_scenario :
  fst (load_analytics Binary64.ops true
         (apply_all Binary64.ops
            [new_conversation_data "ann" "m" 1%float 2 3;
             new_conversation_data "bob" "m" 2%float 4 1;
             new_conversation_data "cy" "m" 3%float 0 6]
            None))
  = Analytics 3 16 2%float [("m", 3)] [("ann", 1); ("bob", 1); ("cy", 1)].
Proof. vm_compute. reflexivity. Qed.

(** ** Persistence *)

Section PersistenceFacts.

Context {num : Type} (A : arith num).

Lemma save_failure_reported (w : write_outcome) (a : analytics num) (d : disk num) :
  w <> WriteOk ->
  snd (save_analytics w a d) = [ErrorSavingAnalytics] /\
  (fst (save_analytics w a d) = d \/ fst (save_analytics w a d) = Some Corrupt).
Proof.
  destruct w; intros H; simpl; auto. now contradiction H.
Qed.

Lemma update_disk (e : io) (c : conversation_data num) (d : disk num) :
  fst (update_analytics A e c d)
  = fst (save_analytics (write e)
           (record_conversation A c (fst (load_analytics A (readable e) d))) d).
Proof.
  unfold update_analytics.
  destruct (load_analytics A (readable e) d) as [a m1]. simpl fst.
  destruct (save_analytics (write e) (record_conversation A c a) d). reflexivity.
Qed.

Lemma update_messages (e : io) (c : conversation_data num) (d : disk num) :
  snd (update_analytics A e c d)
  = snd (load_analytics A (readable e) d)
    ++ snd (save_analytics (write e)
              (record_conversation A c (fst (load_analytics A (readable e) d))) d).
Proof.
  unfold update_analytics.
  destruct (load_analytics A (readable e) d) as [a m1]. simpl.
  destruct (save_analytics (write e) (record_conversation A c a) d). reflexivity.
Qed.

End PersistenceFacts.

(** C4.  When persisting the snapshot fails during
    [update_analytics], the failure is reported and the call still returns,
    but the statistics it mutated are not kept anywhere.  After a failed
    open the disk is as it was and the next call behaves as if the failed
    one never happened.  After a write that failed past the truncation the
    file is unreadable: every later load reports it and returns the zero
    default, and the next successful call stores the statistics of its own
    conversation alone.  In both cases the next call starts from what
    [load_analytics] reads on the disk, not from the mutated statistics. *)
Theorem failed_save_is_reported_and_dropped :
  forall (num : Type) (A : arith num) (d : disk num)
         (e1 e2 : io) (c1 c2 : conversation_data num),
    write e1 <> WriteOk ->
    let d1 := fst (update_analytics A e1 c1 d) in
    In ErrorSavingAnalytics (snd (update_analytics A e1 c1 d)) /\
    (write e1 = OpenFails -> d1 = d) /\
    (write e1 = DumpFails ->
     d1 = Some Corrupt /\
     (forall can_read,
        load_analytics A can_read d1
        = (default_analytics A, [ErrorLoadingAnalytics])) /\
     (write e2 = WriteOk ->
      fst (update_analytics A e2 c2 d1)
      = Some (Doc (record_conversation A c2 (default_analytics A))))) /\
    (write e2 = WriteOk ->
     fst (update_analytics A e2 c2 d1)
     = Some (Doc (record_conversation A c2
                    (fst (load_analytics A (readable e2) d1))))) /\
    (write e1 = OpenFails ->
     update_analytics A e2 c2 d1 = update_analytics A e2 c2 d).
Proof.
  intros num A d e1 e2 c1 c2 Hfail d1.
  destruct (save_failure_reported
              (record_conversation A c1 (fst (load_analytics A (readable e1) d)))
              d Hfail) as [Hmsg _].
  split; [|split; [|split; [|split]]].
  - rewrite update_messages, Hmsg. apply in_or_app. right. now left.
  - intros Hopen. unfold d1. rewrite update_disk, Hopen. reflexivity.
  - intros Hdump.
    assert (E : d1 = Some Corrupt).
    { unfold d1. rewrite update_disk, Hdump. reflexivity. }
    split; [exact E|]. rewrite E. split.
    + intros can_read. now destruct can_read.
    + intros Hok. rewrite update_disk, Hok.
      cbn [save_analytics fst]. now destruct (readable e2).
  - intros Hok. rewrite update_disk, Hok. reflexivity.
  - intros Hopen. unfold d1. rewrite update_disk, Hopen. reflexivity.
Qed.

Lemma failed_save_is_reported_and_dropped_witness :
  let c1 := new_conversation_data "ann" "m" 1.5%float 3 5 in
  let c2 := new_conversation_data "bob" "m" 2.5%float 1 1 in
  let old := Some (Doc (Analytics 4 90 2%float [("m", 4)] [("bob", 4)])) in
  let d1 := fst (update_analytics Binary64.ops (IO true DumpFails) c1 old) in
  write (IO true DumpFails) <> WriteOk /\
  d1 = Some Corrupt /\
  fst (update_analytics Binary64.ops io_ok c2 d1)
  = Some (Doc (record_conversation Binary64.ops c2
                 (default_analytics Binary64.ops))).
Proof.
  intros c1 c2 old d1.
  assert (Hf : write (IO true DumpFails) <> WriteOk) by discriminate.
  destruct (@failed_save_is_reported_and_dropped float Binary64.ops old
              (IO true DumpFails) io_ok c1 c2 Hf)
    as (_ & _ & Hdump & _).
  destruct (Hdump eq_refl) as (Hd1 & _ & Hnext).
  split; [exact Hf|]. split; [exact Hd1 | exact (Hnext eq_refl)].
Defined.

(** The claim read literally: the statistics mutated by a call whose save
    failed would be the base of the next call.  They are not: after a call
    whose open-for-write failed and a second, successful call, the disk
    holds one conversation, not two. *)
Lemma failed_save_not_source_of_truth :
  let c1 := new_conversation_data "ann" "m" 1.5%float 3 5 in
  let c2 := new_conversation_data "bob" "m" 2.5%float 1 1 in
  let d2 := run_updates Binary64.ops [(IO true OpenFails, c1); (io_ok, c2)] None in
  let seen := fst (load_analytics Binary64.ops true d2) in
  seen <> record_conversation Binary64.ops c2
            (record_conversation Binary64.ops c1 (default_analytics Binary64.ops)) /\
  seen = record_conversation Binary64.ops c2 (default_analytics Binary64.ops) /\
  total_conversations seen = 1.
Proof.
  cbv zeta. repeat split.
  intros H. apply (f_equal (@total_conversations float)) in H.
  vm_compute in H. discriminate.
Qed.


(** C7.  [load_analytics] returns the zero-valued default, as an ordinary
    result, when no file exists, when the file's content is rejected by the
    JSON parser and when the file cannot be read; the default has zero
    counts, a zero average and empty tables. *)
Theorem load_falls_back_to_zero_default :
  forall (num : Type) (A : arith num) (can_read : bool) (f : file num),
    fst (load_analytics A can_read None) = default_analytics A /\
    fst (load_analytics A can_read (Some Corrupt)) = default_analytics A /\
    fst (load_analytics A false (Some f)) = default_analytics A /\
    snd (load_analytics A can_read None) = [] /\
    total_conversations (default_analytics A) = 0 /\
    stat_total_tokens (default_analytics A) = 0 /\
    avg_response_time (default_analytics A) = of_int A 0 /\
    model_usage (default_analytics A) = [] /\
    user_activity (default_analytics A) = [].
Proof.
  intros num A can_read f.
  repeat split; try reflexivity.
  now destruct can_read.
Qed.

(** ** Credential to model lookup *)

Lemma index_none (x : string) (l : list string) :
  Router.index x l = None <-> ~ In x l.
Proof.
  induction l as [|y r IH]; simpl.
  - tauto.
  - destruct (String.eqb_spec y x) as [->|Hne].
    + split; [discriminate | intros H; contradiction H; now left].
    + destruct (Router.index x r) as [i|]; simpl.
      * split; [discriminate|]. intros H. exfalso. apply H. right.
        destruct IH as [_ IH]. destruct (in_dec string_dec x r) as [Hin|Hin];
          [exact Hin | now specialize (IH Hin)].
      * split; [|reflexivity]. intros _ [H|H]; [now apply Hne|].
        destruct IH as [IH _]. now apply IH.
Qed.

(** [index] is the first position at which the credential occurs. *)
Lemma index_some (x : string) (l : list string) (i : nat) :
  Router.index x l = Some i ->
  nth_error l i = Some x /\ ~ In x (firstn i l).
Proof.
  revert i. induction l as [|y r IH]; simpl; intros i H.
  - discriminate.
  - destruct (String.eqb_spec y x) as [->|Hne].
    + injection H as <-. simpl. tauto.
    + destruct (Router.index x r) as [j|]; simpl in H; [|discriminate].
      injection H as <-. destruct (IH j eq_refl) as [Hn Hf].
      simpl. split; [exact Hn|]. intros [E|E]; [now apply Hne | now apply Hf].
Qed.

Lemma load_api_keys_at_most_four (env : Router.environ) :
  (List.length (Router.load_api_keys env) <= 4)%nat.
Proof.
  unfold Router.load_api_keys, Router.key_names. simpl.
  repeat match goal with
         | |- context [env ?n] => destruct (env n) as [?k|]
         | |- context [String.eqb ?k ""] => destruct (String.eqb k "")
         end; simpl; lia.
Qed.

(** C5.  The lookup returns the same default model, the first entry of the
    model table, when the credential list is empty, when the credential is
    not in the list and when its position is beyond the table; a credential
    at position [i] inside the table gets the model at position [i].
    [get_model_for_api_key] is this lookup on the credentials loaded from
    the environment. *)
Theorem model_lookup_defaults_and_positions :
  forall (api_keys : list string) (api_key : string),
    let default := "deepseek/deepseek-chat" in
    nth 0 Router.models "" = default /\
    (api_keys = [] -> Router.model_for_keys api_keys api_key = default) /\
    (~ In api_key api_keys -> Router.model_for_keys api_keys api_key = default) /\
    (forall i, Router.index api_key api_keys = Some i ->
               (List.length Router.models <= i)%nat ->
               Router.model_for_keys api_keys api_key = default) /\
    (forall i, Router.index api_key api_keys = Some i ->
               (i < List.length Router.models)%nat ->
               Router.model_for_keys api_keys api_key = nth i Router.models "") /\
    (forall env, Router.load_api_keys env = api_keys ->
                 Router.get_model_for_api_key env api_key
                 = Router.model_for_keys api_keys api_key).
Proof.
  intros api_keys api_key default. repeat split.
  - intros ->. reflexivity.
  - intros Hnot. apply index_none in Hnot.
    unfold Router.model_for_keys. rewrite Hnot. now destruct api_keys.
  - intros i Hi Hle. unfold Router.model_for_keys. rewrite Hi.
    destruct api_keys; [reflexivity|].
    apply Nat.ltb_ge in Hle. now rewrite Hle.
  - intros i Hi Hlt. unfold Router.model_for_keys. rewrite Hi.
    destruct api_keys; [discriminate|].
    apply Nat.ltb_lt in Hlt. now rewrite Hlt.
  - intros env <-. reflexivity.
Qed.

Lemma model_lookup_defaults_and_positions_witness :
  let keys := ["sk-or-v1-a"; "sk-or-v1-b"; "sk-or-v1-c"; "sk-or-v1-d"; "sk-or-v1-e"] in
  Router.model_for_keys [] "sk-or-v1-a" = "deepseek/deepseek-chat" /\
  Router.model_for_keys keys "sk-or-v1-z" = "deepseek/deepseek-chat" /\
  Router.model_for_keys keys "sk-or-v1-e" = "deepseek/deepseek-chat" /\
  Router.model_for_keys keys "sk-or-v1-c" = "01-ai/yi-large".
Proof.
  intros keys.
  pose proof (model_lookup_defaults_and_positions [] "sk-or-v1-a") as H0.
  pose proof (model_lookup_defaults_and_positions keys "sk-or-v1-z") as H1.
  pose proof (model_lookup_defaults_and_positions keys "sk-or-v1-e") as H2.
  pose proof (model_lookup_defaults_and_positions keys "sk-or-v1-c") as H3.
  cbv zeta in *.
  destruct H0 as (_ & H0 & _).
  destruct H1 as (_ & _ & H1 & _).
  destruct H2 as (_ & _ & _ & H2 & _).
  destruct H3 as (_ & _ & _ & _ & H3 & _).
  split; [|split; [|split]].
  - apply H0. reflexivity.
  - apply H1. unfold keys. simpl.
    intros [H|[H|[H|[H|[H|[]]]]]]; discriminate.
  - apply (H2 4%nat); [reflexivity | simpl; lia].
  - apply (H3 2%nat); [reflexivity | simpl; lia].
Defined.

(** ** The summary *)

Lemma insert_desc_perm (x : string * Z) (l : list (string * Z)) :
  Permutation (x :: l) (insert_desc x l).
Proof.
  induction l as [|y r IH]; simpl.
  - apply Permutation_refl.
  - destruct (snd y <=? snd x).
    + apply Permutation_refl.
    + eapply perm_trans; [apply perm_swap|]. now apply perm_skip.
Qed.

Lemma insert_desc_sorted (x : string * Z) (l : list (string * Z)) :
  StronglySorted (fun a b => snd b <= snd a) l ->
  StronglySorted (fun a b => snd b <= snd a) (insert_desc x l).
Proof.
  induction 1 as [|y r Hs IH Hy]; simpl.
  - constructor; constructor.
  - destruct (Z.leb_spec (snd y) (snd x)) as [Hle|Hlt].
    + constructor.
      * now constructor.
      * constructor; [exact Hle|].
        eapply Forall_impl; [|exact Hy]. simpl. intros b Hb. lia.
    + constructor; [exact IH|].
      eapply Permutation_Forall; [apply insert_desc_perm|].
      constructor; [lia | exact Hy].
Qed.

Lemma insert_desc_stable (c : Z) (x : string * Z) (l : list (string * Z)) :
  filter (fun a => snd a =? c) (insert_desc x l)
  = filter (fun a => snd a =? c) (x :: l).
Proof.
  induction l as [|y r IH]; [reflexivity|].
  simpl insert_desc.
  destruct (Z.leb_spec (snd y) (snd x)) as [Hle|Hlt]; [reflexivity|].
  cbn [filter] in *. rewrite IH.
  destruct (Z.eqb_spec (snd y) c) as [Ey|Ey];
    destruct (Z.eqb_spec (snd x) c) as [Ex|Ex]; try reflexivity.
  lia.
Qed.

Lemma sorted_by_count_desc_spec (items : list (string * Z)) :
  stable_desc_sort items (sorted_by_count_desc items).
Proof.
  unfold stable_desc_sort, sorted_by_count_desc.
  induction items as [|x r (Hp & Hs & Hf)]; simpl.
  - repeat split; [apply perm_nil | constructor].
  - repeat split.
    + eapply perm_trans; [apply perm_skip, Hp | apply insert_desc_perm].
    + now apply insert_desc_sorted.
    + intros c. rewrite insert_desc_stable. cbn [filter]. now rewrite Hf.
Qed.

Lemma filter_count_head (x : string * Z) (l : list (string * Z)) :
  filter (fun a => snd a =? snd x) (x :: l)
  = x :: filter (fun a => snd a =? snd x) l.
Proof.
  cbn [filter]. now rewrite Z.eqb_refl.
Qed.

(** A descending list is determined by its groups of equal count. *)
Lemma sorted_groups_determine (o1 : list (string * Z)) :
  forall o2 : list (string * Z),
    StronglySorted (fun a b => snd b <= snd a) o1 ->
    StronglySorted (fun a b => snd b <= snd a) o2 ->
    (forall c, filter (fun a => snd a =? c) o1 = filter (fun a => snd a =? c) o2) ->
    o1 = o2.
Proof.
  induction o1 as [|x r1 IH]; intros o2 S1 S2 Hf.
  - destruct o2 as [|y r2]; [reflexivity|].
    specialize (Hf (snd y)). rewrite filter_count_head in Hf. discriminate.
  - destruct o2 as [|y r2].
    { specialize (Hf (snd x)). rewrite filter_count_head in Hf. discriminate. }
    inversion S1 as [|? ? S1' F1]; subst.
    inversion S2 as [|? ? S2' F2]; subst.
    assert (Hxy : snd x <= snd y).
    { assert (Hin : In x (y :: r2)).
      { apply (proj1 (filter_In (fun a => snd a =? snd x) x (y :: r2))).
        rewrite <- Hf, filter_count_head. now left. }
      destruct Hin as [->|Hin]; [lia|].
      rewrite Forall_forall in F2. now apply F2. }
    assert (Hyx : snd y <= snd x).
    { assert (Hin : In y (x :: r1)).
      { apply (proj1 (filter_In (fun a => snd a =? snd y) y (x :: r1))).
        rewrite Hf, filter_count_head. now left. }
      destruct Hin as [->|Hin]; [lia|].
      rewrite Forall_forall in F1. now apply F1. }
    assert (E : snd x = snd y) by lia.
    assert (Exy : x = y).
    { pose proof (Hf (snd x)) as H. rewrite filter_count_head in H.
      cbn [filter] in H. rewrite <- E, Z.eqb_refl in H. now injection H. }
    subst y. f_equal. apply IH; try assumption.
    intros c. specialize (Hf c). cbn [filter] in Hf.
    destruct (snd x =? c); [now injection Hf | exact Hf].
Qed.

Lemma stable_desc_sort_unique (items o1 o2 : list (string * Z)) :
  stable_desc_sort items o1 -> stable_desc_sort items o2 -> o1 = o2.
Proof.
  intros (_ & S1 & F1) (_ & S2 & F2).
  apply sorted_groups_determine; try assumption.
  intros c. now rewrite F1, F2.
Qed.

(** C8.  The summary returns the stored totals together with the first
    five models and the first five users of the tables sorted by descending
    count, entries with equal counts staying in the tables' iteration order;
    that order is the only one with these properties. *)
Theorem summary_top_five_stable :
  forall (num : Type) (A : arith num) (can_read : bool) (d : disk num),
    let a := fst (load_analytics A can_read d) in
    let s := fst (get_analytics_summary A can_read d) in
    sum_total_conversations s = total_conversations a /\
    sum_total_tokens s = stat_total_tokens a /\
    (exists ms, stable_desc_sort (model_usage a) ms /\
                (forall ms', stable_desc_sort (model_usage a) ms' -> ms' = ms) /\
                top_models s = firstn 5 ms) /\
    (exists us, stable_desc_sort (user_activity a) us /\
                (forall us', stable_desc_sort (user_activity a) us' -> us' = us) /\
                top_users s = firstn 5 us).
Proof.
  intros num A can_read d a s.
  assert (Hs : s = summary_of A a).
  { unfold s, a, get_analytics_summary.
    now destruct (load_analytics A can_read d). }
  rewrite Hs. repeat split.
  - exists (sorted_by_count_desc (model_usage a)).
    pose proof (sorted_by_count_desc_spec (model_usage a)) as H.
    split; [exact H|]. split; [|reflexivity].
    intros ms' H'. exact (stable_desc_sort_unique H' H).
  - exists (sorted_by_count_desc (user_activity a)).
    pose proof (sorted_by_count_desc_spec (user_activity a)) as H.
    split; [exact H|]. split; [|reflexivity].
    intros us' H'. exact (stable_desc_sort_unique H' H).
Qed.

(** Ties are not broken alphabetically: "zeta" was counted before "alpha". *)
Example summary_ties_keep_insertion_order :
  top_models
    (summary_of Binary64.ops
       (Analytics 7 0 0%float [("zeta", 2); ("mid", 3); ("alpha", 2)] []))
  = [("mid", 3); ("zeta", 2); ("alpha", 2)].
Proof. reflexivity. Qed.

(** [round_half_even] returns an integer at distance at most 1/2. *)
Lemma round_half_even_nearest (q : Q) :
  (q - inject_Z (round_half_even q) <= 1 # 2)%Q /\
  (inject_Z (round_half_even q) - q <= 1 # 2)%Q.
Proof.
  destruct q as [n d]. unfold round_half_even. cbn [Qnum Qden].
  pose proof (Z.div_mod n (Zpos d) ltac:(lia)) as Hdm.
  pose proof (Z.mod_pos_bound n (Zpos d) ltac:(lia)) as Hm.
  set (fl := n / Zpos d) in *. set (m := n mod Zpos d) in *.
  assert (Hcase :
    forall r, (r = fl /\ 2 * m <= Zpos d) \/ (r = fl + 1 /\ Zpos d <= 2 * m) ->
      ((n # d) - inject_Z r <= 1 # 2)%Q /\ (inject_Z r - (n # d) <= 1 # 2)%Q).
  { intros r Hr. unfold Qle, Qminus, Qplus, Qopp, inject_Z. cbn [Qnum Qden].
    rewrite ?Pos2Z.inj_mul. destruct Hr as [[-> H]|[-> H]]; nia. }
  apply Hcase.
  destruct (Z.ltb_spec (2 * m) (Zpos d)); [left; lia|].
  destruct (Z.ltb_spec (Zpos d) (2 * m)); [right; lia|].
  destruct (Z.even fl); [left | right]; lia.
Qed.

(** On a tie [round_half_even] returns the even neighbour, and it does not
    leave the non-negative numbers. *)
Lemma round_half_even_ties (q : Q) :
  ((q - inject_Z (round_half_even q) == 1 # 2)%Q \/
   (inject_Z (round_half_even q) - q == 1 # 2)%Q ->
   Z.even (round_half_even q) = true) /\
  ((0 <= q)%Q -> 0 <= round_half_even q).
Proof.
  destruct q as [n d]. unfold round_half_even. cbn [Qnum Qden].
  pose proof (Z.div_mod n (Zpos d) ltac:(lia)) as Hdm.
  pose proof (Z.mod_pos_bound n (Zpos d) ltac:(lia)) as Hm.
  set (fl := n / Zpos d) in *. set (m := n mod Zpos d) in *.
  split.
  - unfold Qeq, Qminus, Qplus, Qopp, inject_Z. cbn [Qnum Qden].
    rewrite ?Pos2Z.inj_mul.
    destruct (Z.ltb_spec (2 * m) (Zpos d)) as [L1|L1]; [intros [T|T]; nia|].
    destruct (Z.ltb_spec (Zpos d) (2 * m)) as [L2|L2]; [intros [T|T]; nia|].
    destruct (Z.even fl) eqn:E; [intros _; exact E|].
    intros _. rewrite Z.even_add, E. reflexivity.
  - unfold Qle. cbn [Qnum Qden]. intros Hq.
    assert (0 <= n) by lia.
    assert (0 <= fl) by (apply Z.div_pos; lia).
    destruct (2 * m <? Zpos d); [lia|].
    destruct (Zpos d <? 2 * m); [lia|].
    destruct (Z.even fl); lia.
Qed.

(** C10.  The average reported by the summary is the stored average
    rounded to two decimal places, while the two totals are the stored
    values unchanged.  For a finite non-zero stored average [x] the
    reported value is the double that IEEE division yields for [r / 100]
    with the sign of [x], where [r] is the integer nearest to [100 * |x|]
    (taken exactly), the even one on a tie; zeros, infinities and NaN are
    reported as stored.  The reported average is in general not the stored
    one: after three exchanges of 0.1 s the store holds
    0.10000000000000002 and the summary reports 0.1. *)
Theorem summary_average_is_rounded :
  forall (can_read : bool) (d : disk float),
    let a := fst (load_analytics Binary64.ops can_read d) in
    let s := fst (get_analytics_summary Binary64.ops can_read d) in
    sum_avg_response_time s = Binary64.round2 (avg_response_time a) /\
    sum_total_conversations s = total_conversations a /\
    sum_total_tokens s = stat_total_tokens a /\
    (let d3 := apply_all Binary64.ops
                 (map (fun t => new_conversation_data "ann" "m" t 3 5)
                      [0.1; 0.1; 0.1]%float) None in
     sum_avg_response_time (fst (get_analytics_summary Binary64.ops true d3))
     = 0.1%float /\
     avg_response_time (fst (load_analytics Binary64.ops true d3)) <> 0.1%float) /\
    (forall (sg : bool) (m : positive) (e : Z),
       Prim2SF (avg_response_time a) = S754_finite sg m e ->
       let hundredfold :=
         (Binary64.SF2Q (S754_finite false m e) * inject_Z 100)%Q in
       exists r : Z,
         0 <= r /\
         (hundredfold - inject_Z r <= 1 # 2)%Q /\
         (inject_Z r - hundredfold <= 1 # 2)%Q /\
         ((hundredfold - inject_Z r == 1 # 2)%Q \/
          (inject_Z r - hundredfold == 1 # 2)%Q -> Z.even r = true) /\
         sum_avg_response_time s
         = match r with
           | Zpos p =>
               SF2Prim (SFdiv prec emax (S754_finite sg p 0)
                                        (S754_finite false 100 0))
           | _ => SF2Prim (S754_zero sg)
           end) /\
    ((forall sg m e, Prim2SF (avg_response_time a) <> S754_finite sg m e) ->
     sum_avg_response_time s = avg_response_time a).
Proof.
  intros can_read d a s.
  assert (Hs : s = summary_of Binary64.ops a).
  { unfold s, a, get_analytics_summary.
    now destruct (load_analytics Binary64.ops can_read d). }
  rewrite Hs.
  split; [reflexivity|]. split; [reflexivity|]. split; [reflexivity|].
  split; [|split].
  - cbv zeta. split.
    + vm_compute. reflexivity.
    + intros H. apply (f_equal Prim2SF) in H. vm_compute in H. discriminate.
  - intros sg m e Hx hundredfold.
    exists (round_half_even hundredfold).
    destruct (round_half_even_nearest hundredfold) as [B1 B2].
    destruct (round_half_even_ties hundredfold) as [T P].
    split; [|split; [exact B1 | split; [exact B2 | split; [exact T|]]]].
    + apply P. unfold hundredfold, Binary64.SF2Q.
      destruct (0 <=? e); unfold Qle, Qmult, inject_Z; cbn [Qnum Qden]; lia.
    + cbn [summary_of sum_avg_response_time round2 Binary64.ops].
      unfold Binary64.round2. rewrite Hx. reflexivity.
  - intros Hnf. cbn [summary_of sum_avg_response_time round2 Binary64.ops].
    unfold Binary64.round2.
    destruct (Prim2SF (avg_response_time a)) as [sg|sg| |sg m e] eqn:E;
      try reflexivity.
    now contradiction (Hnf sg m e).
Qed.

(** A stored average of 0.125 lies half-way between two hundredths: the
    summary reports the even one, 0.12. *)
Lemma summary_average_is_rounded_witness :
  let d := Some (Doc (Analytics 1 8 0.125%float [("m", 1)] [("ann", 1)])) in
  exists r : Z,
    r = 12 /\
    sum_avg_response_time (fst (get_analytics_summary Binary64.ops true d))
    = match r with
      | Zpos p =>
          SF2Prim (SFdiv prec emax (S754_finite false p 0)
                                   (S754_finite false 100 0))
      | _ => SF2Prim (S754_zero false)
      end.
Proof.
  intros d.
  destruct (summary_average_is_rounded true d) as (_ & _ & _ & _ & H & _).
  destruct (H false 4503599627370496%positive (-55)
              ltac:(vm_compute; reflexivity)) as (r & P & B1 & B2 & T & E).
  exists r. split; [|exact E].
  set (h := (Binary64.SF2Q (S754_finite false 4503599627370496 (-55))
             * inject_Z 100)%Q) in *.
  assert (Hh : h = (450359962737049600 # 36028797018963968)%Q)
    by (vm_compute; reflexivity).
  rewrite Hh in B1, B2, T. clear Hh h.
  unfold Qle, Qeq, Qminus, Qplus, Qopp, inject_Z in B1, B2, T.
  cbn [Qnum Qden] in B1, B2, T.
  rewrite ?Pos2Z.inj_mul in B1, B2, T.
  assert (R : r = 12 \/ r = 13) by lia.
  destruct R as [R|R]; [exact R|].
  exfalso. subst r.
  assert (F : Z.even 13 = true) by (apply T; right; reflexivity).
  discriminate F.
Defined.

(** ** The conversation context *)

Section ContextFacts.

Variable env : Router.environ.
Variable post : Context.request -> Context.http_reply.

Lemma history_of_add (r c : string) (s : Context.session_state) :
  Context.history_of (Context.add_message_to_context r c s)
  = Context.history_of s ++ [Context.Message r c].
Proof.
  destruct s as [[h|] p]; reflexivity.
Qed.

Lemma directive_of_add (r c : string) (s : Context.session_state) :
  directive_of (Context.add_message_to_context r c s) = directive_of s.
Proof.
  destruct s as [[h|] [p|]]; reflexivity.
Qed.

Lemma history_after_exchanges (xs : list (string * string)) :
  Context.history_of (after_exchanges xs) = transcript xs.
Proof.
  unfold after_exchanges.
  enough (H : forall s,
             Context.history_of
               (fold_left (fun s ua =>
                             Context.add_message_to_context "assistant" (snd ua)
                               (Context.add_message_to_context "user" (fst ua) s))
                          xs s)
             = Context.history_of s ++ transcript xs) by apply H.
  induction xs as [|[u a] r IH]; intros s; simpl.
  - now rewrite app_nil_r.
  - rewrite IH, !history_of_add, <- !app_assoc. reflexivity.
Qed.

(** The state and the log after a non-streaming exchange, in closed form. *)
Lemma exchange_effect (prompt api_key : string) (include_context : bool)
    (w : Context.world) :
  let req := expected_request env (Context.session w) prompt api_key include_context in
  let w' := snd (Context.generate_response_with_context
                   env post prompt api_key include_context false w) in
  Context.sent w' = Context.sent w ++ [req] /\
  Context.history_of (Context.session w')
  = Context.history_of (Context.session w)
    ++ Context.Message "user" prompt :: appended_reply (post req).
Proof.
  destruct w as [[[h|] [p|]] log]; destruct include_context;
    cbv zeta; unfold expected_request, expected_messages, directive_of;
    unfold Context.generate_response_with_context, Context.generate_response;
    cbn [Context.session Context.sent Context.add_message_to_context
         Context.conversation_history Context.system_prompt
         Context.initialize_conversation_context Context.history_of
         Context.get_conversation_context Context.get_system_prompt
         fst snd app];
    rewrite ?removelast_last;
    unfold Context.build_messages; cbn [app removelast];
    match goal with
    | |- context [post ?r] => destruct (post r) as [[|[c|] cs]|e|e]
    end;
    cbn [Context.success Context.res_content Context.truthy appended_reply andb negb];
    try (destruct (String.eqb c ""));
    cbn; rewrite <- ?app_assoc; split; reflexivity.
Qed.

End ContextFacts.

Lemma directive_after_exchanges (xs : list (string * string)) :
  directive_of (after_exchanges xs) = "You are a helpful AI assistant.".
Proof.
  unfold after_exchanges.
  enough (H : forall s,
             directive_of
               (fold_left (fun s ua =>
                             Context.add_message_to_context "assistant" (snd ua)
                               (Context.add_message_to_context "user" (fst ua) s))
                          xs s)
             = directive_of s) by (rewrite H; reflexivity).
  induction xs as [|[u a] r IH]; intros s; simpl.
  - reflexivity.
  - now rewrite IH, !directive_of_add.
Qed.

Lemma count_occ_directive (d prompt : string) :
  count_occ message_eq_dec
    (if String.eqb d "" then [] else [Context.Message "system" d])
    (Context.Message "user" prompt) = 0%nat.
Proof.
  destruct (String.eqb d ""); [reflexivity|].
  cbn [count_occ].
  destruct (message_eq_dec (Context.Message "system" d)
                           (Context.Message "user" prompt)) as [E|_];
    [discriminate | reflexivity].
Qed.

(** C3.  After the user messages U1..Uk and the replies A1..A(k-1) have been
    appended to an empty context, the exchange for Uk posts, with history
    included, exactly [[directive?] + [U1, A1, ..., U(k-1), A(k-1)] + [Uk]]:
    the directive only when it is a non-empty string, and Uk once after the
    earlier turns; with history excluded it posts [[Uk]] alone. *)
Theorem request_is_directive_history_prompt :
  forall (env : Router.environ) (post : Context.request -> Context.http_reply)
         (xs : list (string * string)) (uk api_key : string)
         (sys : option string) (log : list Context.request),
    let s := match sys with
             | Some p => Context.set_system_prompt p (after_exchanges xs)
             | None => after_exchanges xs
             end in
    let directive := match sys with
                     | Some p => p
                     | None => "You are a helpful AI assistant."
                     end in
    let payload msgs :=
      Context.Request api_key (Router.get_model_for_api_key env api_key)
                      msgs 4000 0.9%float false in
    let history_request :=
      (if String.eqb directive "" then []
       else [Context.Message "system" directive])
      ++ transcript xs ++ [Context.Message "user" uk] in
    Context.sent
      (snd (Context.generate_response_with_context
              env post uk api_key true false (Context.World s log)))
    = log ++ [payload history_request] /\
    count_occ message_eq_dec history_request (Context.Message "user" uk)
    = S (count_occ message_eq_dec (transcript xs) (Context.Message "user" uk)) /\
    Context.sent
      (snd (Context.generate_response_with_context
              env post uk api_key false false (Context.World s log)))
    = log ++ [payload [Context.Message "user" uk]].
Proof.
  intros env post xs uk api_key sys log s directive payload history_request.
  assert (Hh : Context.history_of s = transcript xs).
  { unfold s. destruct sys; [|apply history_after_exchanges].
    unfold Context.set_system_prompt, Context.history_of.
    cbn [Context.conversation_history].
    apply history_after_exchanges. }
  assert (Hd : directive_of s = directive).
  { unfold s, directive. destruct sys; [reflexivity|].
    apply directive_after_exchanges. }
  split; [|split].
  - destruct (exchange_effect env post uk api_key true (Context.World s log))
      as [Hsent _].
    rewrite Hsent. cbn [Context.sent Context.session].
    unfold expected_request, expected_messages. rewrite Hh, Hd. reflexivity.
  - unfold history_request. rewrite !count_occ_app, count_occ_directive.
    cbn [count_occ].
    destruct (message_eq_dec (Context.Message "user" uk)
                             (Context.Message "user" uk)) as [_|N];
      [lia | now contradiction N].
  - destruct (exchange_effect env post uk api_key false (Context.World s log))
      as [Hsent _].
    rewrite Hsent. reflexivity.
Qed.

(** A failed call leaves through the [len(None)] of the token count, after
    the context has been updated. *)
Lemma failed_exchange_raises
    (env : Router.environ) (post : Context.request -> Context.http_reply)
    (prompt api_key : string) (include_context : bool) (w : Context.world) :
  successful (post (expected_request env (Context.session w) prompt api_key
                      include_context)) = false ->
  fst (Context.generate_response_with_context
         env post prompt api_key include_context false w)
  = Context.Raised Context.TypeError.
Proof.
  destruct w as [[[h|] [p|]] log]; destruct include_context;
    unfold expected_request, expected_messages, directive_of;
    unfold Context.generate_response_with_context, Context.generate_response;
    cbn [Context.session Context.sent Context.add_message_to_context
         Context.conversation_history Context.system_prompt
         Context.initialize_conversation_context Context.history_of
         Context.get_conversation_context Context.get_system_prompt
         fst snd app];
    rewrite ?removelast_last;
    unfold Context.build_messages; cbn [app removelast];
    match goal with
    | |- context [post ?r] => destruct (post r) as [[|[c|] cs]|e|e]
    end;
    cbn; intros H; try discriminate; reflexivity.
Qed.

(** With [streaming] set nothing is posted; the user message stays. *)
Lemma streaming_exchange_keeps_user_message
    (env : Router.environ) (post : Context.request -> Context.http_reply)
    (prompt api_key : string) (include_context : bool) (w : Context.world) :
  let w' := snd (Context.generate_response_with_context
                   env post prompt api_key include_context true w) in
  Context.sent w' = Context.sent w /\
  Context.history_of (Context.session w')
  = Context.history_of (Context.session w) ++ [Context.Message "user" prompt].
Proof.
  cbv zeta. unfold Context.generate_response_with_context.
  cbn [snd Context.sent Context.session]. split; [reflexivity|].
  apply history_of_add.
Qed.

(** C9.  When the provider call does not succeed, the user message that
    was appended before the call stays in the context without a reply, so
    the next exchange posts a history in which two user messages follow each
    other; an assistant message is appended exactly when the call succeeds
    with non-empty content. *)
Theorem failed_exchange_keeps_user_message :
  forall (env : Router.environ) (post : Context.request -> Context.http_reply)
         (prompt api_key : string) (include_context : bool) (w : Context.world),
    let req := expected_request env (Context.session w) prompt api_key
                 include_context in
    let w1 := snd (Context.generate_response_with_context
                     env post prompt api_key include_context false w) in
    let before := Context.history_of (Context.session w) in
    (successful (post req) = false ->
     Context.history_of (Context.session w1)
     = before ++ [Context.Message "user" prompt]) /\
    (successful (post req) = false ->
     forall next key2 : string,
       let w2 := snd (Context.generate_response_with_context
                        env post next key2 true false w1) in
       exists req2,
         Context.sent w2 = Context.sent w1 ++ [req2] /\
         consecutive_users (Context.messages req2) /\
         consecutive_users (Context.history_of (Context.session w2))) /\
    (forall c cs, post req = Context.Body (Some c :: cs) -> c <> "" ->
     Context.history_of (Context.session w1)
     = before ++ [Context.Message "user" prompt; Context.Message "assistant" c]) /\
    (forall cs, post req = Context.Body (Some "" :: cs) \/
                post req = Context.Body (None :: cs) ->
     Context.history_of (Context.session w1)
     = before ++ [Context.Message "user" prompt]).
Proof.
  intros env post prompt api_key include_context w req w1 before.
  destruct (exchange_effect env post prompt api_key include_context w)
    as [Hsent Hhist].
  fold req in Hsent, Hhist. fold w1 in Hsent, Hhist. fold before in Hhist.
  assert (Hfail : successful (post req) = false ->
                  Context.history_of (Context.session w1)
                  = before ++ [Context.Message "user" prompt]).
  { intros Hf. rewrite Hhist. destruct (post req) as [[|o cs]|e|e];
      try reflexivity. discriminate. }
  split; [exact Hfail|]. split; [|split].
  - intros Hf next key2 w2.
    destruct (exchange_effect env post next key2 true w1) as [Hsent2 Hhist2].
    fold w2 in Hsent2, Hhist2.
    eexists. split; [exact Hsent2|]. split.
    + unfold expected_request, expected_messages.
      cbn [Context.messages]. rewrite (Hfail Hf).
      exists ((if String.eqb (directive_of (Context.session w1)) "" then []
               else [Context.Message "system" (directive_of (Context.session w1))])
              ++ before), prompt, next, [].
      now rewrite <- !app_assoc.
    + rewrite Hhist2, (Hfail Hf).
      eexists before, prompt, next, _.
      rewrite <- app_assoc. reflexivity.
  - intros c cs Hc Hne. rewrite Hhist, Hc. cbn [appended_reply].
    destruct (String.eqb_spec c ""); [contradiction | reflexivity].
  - intros cs [Hc|Hc]; rewrite Hhist, Hc; reflexivity.
Qed.

Lemma failed_exchange_keeps_user_message_witness :
  let env : Router.environ := fun _ => None in
  let post : Context.request -> Context.http_reply :=
    fun _ => Context.RequestException "timed out" in
  let w := Context.World Context.empty_session [] in
  successful (post (expected_request env (Context.session w) "hello" "k" true))
  = false /\
  Context.history_of
    (Context.session
       (snd (Context.generate_response_with_context
               env post "hello" "k" true false w)))
  = [Context.Message "user" "hello"].
Proof.
  intros env post w. split; [reflexivity|].
  apply (failed_exchange_keeps_user_message env post "hello" "k" true w).
  reflexivity.
Defined.

(** * Further properties *)

(** ** Credentials *)

Lemma prefix_append (p s : string) :
  String.prefix p s = true <-> exists rest, s = (p ++ rest)%string.
Proof.
  revert s. induction p as [|a p IH]; intros s.
  - split; [intros _; exists s; reflexivity|].
    intros _. destruct s; reflexivity.
  - destruct s as [|b s]; simpl.
    + split; [discriminate | intros [rest H]; discriminate].
    + destruct (Ascii.ascii_dec a b) as [->|Hne].
      * rewrite IH. split; intros [rest H]; exists rest.
        -- now rewrite H.
        -- now injection H.
      * split; [discriminate|]. intros [rest H]. injection H as H1 H2.
        now contradiction Hne.
Qed.

(** X1.  [load_api_keys] returns at most four credentials; a string is
    among them exactly when it is the non-empty value of one of the four
    variables OPENROUTER_API_KEY_1..4. *)
Theorem loaded_keys_are_the_set_variables :
  forall (env : Router.environ),
    (List.length (Router.load_api_keys env) <= 4)%nat /\
    forall k : string,
      In k (Router.load_api_keys env) <->
      k <> "" /\ exists name, In name Router.key_names /\ env name = Some k.
Proof.
  intros env. split; [apply load_api_keys_at_most_four|].
  intros k. unfold Router.load_api_keys. rewrite in_flat_map. split.
  - intros (name & Hname & Hin).
    destruct (env name) as [key|] eqn:E; [|contradiction].
    destruct (String.eqb_spec key ""); [contradiction|].
    destruct Hin as [->|[]]. split; [assumption|]. now exists name.
  - intros (Hne & name & Hname & E). exists name. split; [exact Hname|].
    rewrite E. destruct (String.eqb_spec k ""); [contradiction | now left].
Qed.

Lemma all_prefixed_spec (l : list string) :
  Credentials.all_prefixed l = true <->
  Forall (fun k => exists rest, k = ("sk-or-v1-" ++ rest)%string) l.
Proof.
  induction l as [|k r IH]; cbn [Credentials.all_prefixed].
  - split; [constructor | reflexivity].
  - destruct (String.prefix "sk-or-v1-" k) eqn:E; cbn [negb].
    + rewrite IH. split.
      * intros H. constructor; [now apply prefix_append | exact H].
      * intros H. now inversion H.
    + split; [discriminate|]. intros H. inversion H as [|? ? Hk _]; subst.
      apply prefix_append in Hk. congruence.
Qed.

(** X2.  [validate_api_keys] accepts a list exactly when it is non-empty
    and every credential starts with "sk-or-v1-". *)
Theorem validate_api_keys_spec :
  forall api_keys : list string,
    Credentials.validate_api_keys api_keys = true <->
    api_keys <> [] /\
    Forall (fun k => exists rest, k = ("sk-or-v1-" ++ rest)%string) api_keys.
Proof.
  intros [|k r]; unfold Credentials.validate_api_keys.
  - split; [discriminate | intros [H _]; now contradiction H].
  - rewrite <- all_prefixed_spec.
    destruct (Credentials.all_prefixed (k :: r)); simpl.
    + split; [intros _; split; [discriminate | reflexivity] | reflexivity].
    + split; [discriminate | intros [_ H]; discriminate].
Qed.

Lemma model_for_keys_in_table (api_keys : list string) (api_key : string) :
  In (Router.model_for_keys api_keys api_key) Router.models.
Proof.
  unfold Router.model_for_keys.
  destruct api_keys as [|k r]; [now left|].
  destruct (Router.index api_key (k :: r)) as [i|]; [|now left].
  destruct (Nat.ltb_spec i (List.length Router.models)) as [Hlt|_]; [|now left].
  now apply nth_In.
Qed.

(** X3.  Whatever the environment and the credential,
    [get_model_for_api_key] returns one of the four models of its table. *)
Theorem routed_model_is_in_table :
  forall (env : Router.environ) (api_key : string),
    In (Router.get_model_for_api_key env api_key) Router.models.
Proof.
  intros env api_key. apply model_for_keys_in_table.
Qed.

(** X4.  Positions are counted among the variables that are set, not by
    their suffix: when OPENROUTER_API_KEY_1 is unset or empty, the
    credential of OPENROUTER_API_KEY_2 is routed to the first model. *)
Theorem unset_first_key_shifts_models :
  forall (env : Router.environ) (k : string),
    (env "OPENROUTER_API_KEY_1" = None \/ env "OPENROUTER_API_KEY_1" = Some "") ->
    env "OPENROUTER_API_KEY_2" = Some k ->
    k <> "" ->
    Router.get_model_for_api_key env k = "deepseek/deepseek-chat".
Proof.
  intros env k H1 H2 Hne.
  unfold Router.get_model_for_api_key, Router.load_api_keys, Router.key_names.
  cbn [flat_map]. rewrite H2.
  destruct (String.eqb_spec k ""); [contradiction|].
  assert (E : match env "OPENROUTER_API_KEY_1" with
              | Some key => if String.eqb key "" then [] else [key]
              | None => []
              end = []).
  { destruct H1 as [-> | ->]; reflexivity. }
  rewrite E. cbn [app]. unfold Router.model_for_keys.
  cbn [Router.index]. rewrite String.eqb_refl. reflexivity.
Qed.

Lemma unset_first_key_shifts_models_witness :
  let env : Router.environ :=
    fun name => if String.eqb name "OPENROUTER_API_KEY_2"
                then Some "sk-or-v1-gemini" else None in
  Router.get_model_for_api_key env "sk-or-v1-gemini" = "deepseek/deepseek-chat".
Proof.
  intros env.
  apply (unset_first_key_shifts_models env (k := "sk-or-v1-gemini")).
  - left. reflexivity.
  - reflexivity.
  - discriminate.
Defined.

(** X5.  With the four variables set to four distinct non-empty
    credentials, the credential of variable [i] is routed to the [i]-th
    model of the table. *)
Theorem four_distinct_keys_route_in_order :
  forall (env : Router.environ) (k1 k2 k3 k4 : string),
    env "OPENROUTER_API_KEY_1" = Some k1 ->
    env "OPENROUTER_API_KEY_2" = Some k2 ->
    env "OPENROUTER_API_KEY_3" = Some k3 ->
    env "OPENROUTER_API_KEY_4" = Some k4 ->
    NoDup [""; k1; k2; k3; k4] ->
    map (Router.get_model_for_api_key env) [k1; k2; k3; k4] = Router.models.
Proof.
  intros env k1 k2 k3 k4 E1 E2 E3 E4 Hnd.
  assert (Hl : Router.load_api_keys env = [k1; k2; k3; k4]).
  { unfold Router.load_api_keys, Router.key_names. cbn [flat_map].
    rewrite E1, E2, E3, E4.
    inversion Hnd as [|? ? Hnot _]; subst.
    repeat match goal with
           | |- context [String.eqb ?k ""] =>
               destruct (String.eqb_spec k "") as [->|_];
               [exfalso; apply Hnot; simpl; tauto|]
           end.
    reflexivity. }
  assert (D : k1 <> k2 /\ k1 <> k3 /\ k1 <> k4 /\ k2 <> k3 /\ k2 <> k4 /\ k3 <> k4).
  { inversion Hnd as [|? ? _ H1]; subst.
    inversion H1 as [|? ? N1 H2]; subst.
    inversion H2 as [|? ? N2 H3]; subst.
    inversion H3 as [|? ? N3 _]; subst.
    simpl in N1, N2, N3. repeat split; intros ->; tauto. }
  destruct D as (D12 & D13 & D14 & D23 & D24 & D34).
  unfold Router.get_model_for_api_key. rewrite Hl.
  unfold Router.model_for_keys. cbn [map Router.index].
  rewrite !String.eqb_refl.
  repeat match goal with
         | |- context [String.eqb ?a ?b] =>
             destruct (String.eqb_spec a b) as [E|_];
             [exfalso; congruence|]
         end.
  reflexivity.
Qed.

Lemma four_distinct_keys_route_in_order_witness :
  let env : Router.environ :=
    fun name =>
      if String.eqb name "OPENROUTER_API_KEY_1" then Some "sk-or-v1-a"
      else if String.eqb name "OPENROUTER_API_KEY_2" then Some "sk-or-v1-b"
      else if String.eqb name "OPENROUTER_API_KEY_3" then Some "sk-or-v1-c"
      else if String.eqb name "OPENROUTER_API_KEY_4" then Some "sk-or-v1-d"
      else None in
  map (Router.get_model_for_api_key env)
      ["sk-or-v1-a"; "sk-or-v1-b"; "sk-or-v1-c"; "sk-or-v1-d"]
  = Router.models.
Proof.
  intros env.
  apply (four_distinct_keys_route_in_order env); try reflexivity.
  repeat constructor; simpl;
    intros H; repeat destruct H as [H|H]; try discriminate; exact H.
Defined.

(** X6.  Given a generator that draws below its bound,
    [get_random_api_key] returns no credential exactly for the empty list
    and otherwise a credential of the list. *)
Theorem random_key_is_drawn_from_the_list :
  forall (randbelow : nat -> nat) (api_keys : list string),
    (forall n, (0 < n)%nat -> (randbelow n < n)%nat) ->
    (Credentials.get_random_api_key randbelow api_keys = None <-> api_keys = []) /\
    (forall k, Credentials.get_random_api_key randbelow api_keys = Some k ->
               In k api_keys).
Proof.
  intros randbelow api_keys Hr. unfold Credentials.get_random_api_key.
  destruct api_keys as [|k0 r].
  - split; [tauto | discriminate].
  - set (l := k0 :: r). split.
    + split; [|discriminate]. intros H. apply nth_error_None in H.
      specialize (Hr (List.length l)). simpl in Hr, H. lia.
    + intros k H. eapply nth_error_In. exact H.
Qed.

Lemma random_key_is_drawn_from_the_list_witness :
  (Credentials.get_random_api_key Nat.pred [] = None <-> @nil string = []) /\
  (forall k, Credentials.get_random_api_key Nat.pred ["sk-or-v1-a"; "sk-or-v1-b"]
             = Some k -> In k ["sk-or-v1-a"; "sk-or-v1-b"]).
Proof.
  assert (Hp : forall n, (0 < n)%nat -> (Nat.pred n < n)%nat) by (intros; lia).
  split.
  - apply (random_key_is_drawn_from_the_list Nat.pred [] Hp).
  - apply (random_key_is_drawn_from_the_list Nat.pred
             ["sk-or-v1-a"; "sk-or-v1-b"] Hp).
Defined.

(** X7.  When [initialize_api_keys] succeeds the session holds the loaded
    credentials, between one and four of them, each with the prefix
    "sk-or-v1-", nothing is reported and the rest of the session is as
    before; when it fails the session is unchanged and the failure is
    reported.  It succeeds exactly when the loaded list validates. *)
Theorem initialize_api_keys_outcomes :
  forall (env : Router.environ) (s : Credentials.app_session),
    let r := Credentials.initialize_api_keys env s in
    let ok := fst (fst r) in
    let s' := snd (fst r) in
    (ok = Credentials.validate_api_keys (Router.load_api_keys env)) /\
    (ok = true ->
     exists keys,
       Credentials.api_keys s' = Some keys /\
       keys = Router.load_api_keys env /\
       (1 <= List.length keys <= 4)%nat /\
       Forall (fun k => exists rest, k = ("sk-or-v1-" ++ rest)%string) keys /\
       Credentials.api_keys_loaded (Credentials.get_session_info s') = true /\
       Credentials.authenticated s' = Credentials.authenticated s /\
       Credentials.session_username s' = Credentials.session_username s /\
       snd r = []) /\
    (ok = false -> s' = s /\ snd r = [Credentials.InvalidOrMissingKeys]).
Proof.
  intros env s r ok s'. subst ok s' r. unfold Credentials.initialize_api_keys.
  destruct (Credentials.validate_api_keys (Router.load_api_keys env)) eqn:V;
    cbn [negb fst snd].
  - split; [reflexivity|]. split; [|discriminate]. intros _.
    apply validate_api_keys_spec in V. destruct V as [Hne Hall].
    exists (Router.load_api_keys env).
    pose proof (load_api_keys_at_most_four env) as H4.
    assert (H1 : (1 <= List.length (Router.load_api_keys env))%nat).
    { destruct (Router.load_api_keys env); [now contradiction Hne | simpl; lia]. }
    repeat split; try assumption.
    cbn [Credentials.get_session_info Credentials.api_keys
         Credentials.api_keys_loaded].
    apply Nat.ltb_lt. lia.
  - split; [reflexivity|]. split; [discriminate|]. intros _. split; reflexivity.
Qed.

Lemma initialize_api_keys_outcomes_witness :
  let env : Router.environ :=
    fun name => if String.eqb name "OPENROUTER_API_KEY_3"
                then Some "sk-or-v1-c" else None in
  let s := Credentials.AppSession None None None in
  fst (fst (Credentials.initialize_api_keys env s)) = true /\
  exists keys,
    Credentials.api_keys (snd (fst (Credentials.initialize_api_keys env s)))
    = Some keys /\ keys = Router.load_api_keys env.
Proof.
  intros env s. split; [reflexivity|].
  destruct (initialize_api_keys_outcomes env s) as (_ & H & _).
  destruct (H eq_refl) as (keys & Hk & Hl & _).
  exists keys. split; assumption.
Defined.

(** X8.  Every model the router can return has a display name of its
    own: for any environment and credential the display name of the routed
    model is one of the four friendly names, never the raw identifier;
    an identifier outside the table is displayed as it is. *)
Theorem routed_model_has_display_name :
  forall (env : Router.environ) (api_key : string),
    let m := Router.get_model_for_api_key env api_key in
    In (Credentials.get_model_display_name m)
       ["DeepSeek Chat"; "Gemini 2.5 Pro"; "Yi Large (Kimi K2)"; "Qwen 2.5 72B"] /\
    Credentials.get_model_display_name m <> m /\
    forall other, ~ In other Router.models ->
                  Credentials.get_model_display_name other = other.
Proof.
  intros env api_key m.
  pose proof (routed_model_is_in_table env api_key) as Hin. fold m in Hin.
  split; [|split].
  - simpl in Hin. destruct Hin as [<-|[<-|[<-|[<-|[]]]]]; simpl; tauto.
  - simpl in Hin. destruct Hin as [<-|[<-|[<-|[<-|[]]]]]; discriminate.
  - intros other Hnot. unfold Credentials.get_model_display_name.
    unfold Credentials.model_names. cbn [Credentials.lookup].
    repeat match goal with
           | |- context [String.eqb other ?k] =>
               destruct (String.eqb_spec other k) as [->|_];
               [exfalso; apply Hnot; simpl; tauto|]
           end.
    reflexivity.
Qed.

(** ** The provider call *)

(** X9.  [generate_response] posts exactly one payload, carrying the
    credential, the model routed for it, [stream = False] and the user
    prompt as its last message; the result is successful exactly when the
    reply has a first choice, a successful result has no error text and an
    unsuccessful one has an error text and no content. *)
Theorem generate_response_result_shape :
  forall (env : Router.environ) (post : Context.request -> Context.http_reply)
         (prompt api_key : string) (history : option (list Context.message))
         (directive : option string) (log : list Context.request),
    let r := fst (Context.generate_response env post prompt api_key
                    history directive log) in
    let log' := snd (Context.generate_response env post prompt api_key
                       history directive log) in
    exists req,
      log' = log ++ [req] /\
      Context.bearer req = api_key /\
      Context.req_model req = Router.get_model_for_api_key env api_key /\
      Context.stream req = false /\
      (exists before,
         Context.messages req = before ++ [Context.Message "user" prompt]) /\
      Context.success r = successful (post req) /\
      (Context.success r = true -> Context.error r = None) /\
      (Context.success r = false ->
       Context.res_content r = None /\ Context.error r <> None).
Proof.
  intros env post prompt api_key history directive log r log'.
  subst r log'. unfold Context.generate_response. cbn [fst snd].
  eexists. split; [reflexivity|]. cbn [Context.bearer Context.req_model
    Context.stream Context.messages].
  split; [reflexivity|]. split; [reflexivity|]. split; [reflexivity|].
  split.
  { unfold Context.build_messages. eexists. rewrite app_assoc. reflexivity. }
  match goal with
  | |- context [post ?q] => destruct (post q) as [[|c cs]|e|e]
  end; cbn [Context.success Context.error Context.res_content successful];
    repeat split; try reflexivity; try discriminate.
Qed.

Lemma compare_one_effect
    (env : Router.environ) (post : Context.request -> Context.http_reply)
    (prompt api_key : string) (log : list Context.request) :
  let req := Context.Request api_key (Router.get_model_for_api_key env api_key)
               [Context.Message "user" prompt] 4000 0.9%float false in
  let r := fst (Features.compare_one env post prompt api_key log) in
  snd (Features.compare_one env post prompt api_key log) = log ++ [req] /\
  Context.model r = Router.get_model_for_api_key env api_key /\
  Context.prompt_tokens r = count_tokens prompt /\
  match post req with
  | Context.Body (Some c :: _) =>
      Context.rsp_success r = true /\ Context.rsp_content r = Some c /\
      Context.rsp_error r = None /\ Context.response_tokens r = count_tokens c
  | _ =>
      Context.rsp_success r = false /\ Context.rsp_content r = None /\
      Context.rsp_error r <> None /\ Context.response_tokens r = 0
  end.
Proof.
  cbv zeta. unfold Features.compare_one, Context.generate_response.
  unfold Context.build_messages. cbn [app].
  destruct (post _) as [[|[c|] cs]|e|e];
    cbn [Context.success Context.res_content Context.error fst snd
         Context.model Context.prompt_tokens Context.rsp_success
         Context.rsp_content Context.rsp_error Context.response_tokens];
    repeat split; try reflexivity; discriminate.
Qed.

(** X10.  [compare_models] never raises and returns one result per
    credential, in order, each tagged with the model routed for its
    credential; it posts one payload per credential, holding the prompt
    alone, without history or directive.  A result is successful only with
    a string content, whose tokens it counts; any other result has no
    content, an error text and zero response tokens. *)
Theorem compare_models_one_result_per_key :
  forall (env : Router.environ) (post : Context.request -> Context.http_reply)
         (prompt : string) (api_keys : list string) (log : list Context.request),
    let rs := fst (Features.compare_models env post prompt api_keys log) in
    let log' := snd (Features.compare_models env post prompt api_keys log) in
    map Context.model rs = map (Router.get_model_for_api_key env) api_keys /\
    log' = log ++ map (fun k =>
                         Context.Request k (Router.get_model_for_api_key env k)
                           [Context.Message "user" prompt] 4000 0.9%float false)
                      api_keys /\
    Forall (fun r =>
              Context.prompt_tokens r = count_tokens prompt /\
              ((Context.rsp_success r = true /\
                Context.rsp_error r = None /\
                exists c, Context.rsp_content r = Some c /\
                          Context.response_tokens r = count_tokens c) \/
               (Context.rsp_success r = false /\
                Context.rsp_content r = None /\
                Context.rsp_error r <> None /\
                Context.response_tokens r = 0))) rs.
Proof.
  intros env post prompt api_keys. induction api_keys as [|k ks IH]; intros log.
  - cbn. rewrite app_nil_r. repeat split. constructor.
  - cbv zeta. cbn [Features.compare_models].
    pose proof (compare_one_effect env post prompt k log) as H1. cbv zeta in H1.
    destruct (Features.compare_one env post prompt k log) as [r log1].
    cbn [fst snd] in H1. destruct H1 as (Hlog & Hm & Hp & Hr).
    specialize (IH log1). cbv zeta in IH.
    destruct (Features.compare_models env post prompt ks log1) as [rs log2].
    cbn [fst snd] in *. destruct IH as (IHm & IHlog & IHall).
    split; [|split].
    + cbn [map]. now rewrite Hm, IHm.
    + rewrite IHlog, Hlog, <- app_assoc. reflexivity.
    + constructor; [|exact IHall]. split; [exact Hp|].
      destruct (post _) as [[|[c|] cs]|e|e];
        destruct Hr as (Hs & Hc & He & Ht);
        first [ left; split; [exact Hs|]; split; [exact He|];
                eexists; split; [exact Hc | exact Ht]
              | right; repeat split; assumption ].
Qed.

(** ** The conversation context across calls *)

Lemma get_system_prompt_directive (s : Context.session_state) :
  fst (Context.get_system_prompt s) = directive_of s.
Proof.
  destruct s as [h [p|]]; reflexivity.
Qed.

(** What any call does to the world, whether it returns or raises. *)
Lemma call_effect
    (env : Router.environ) (post : Context.request -> Context.http_reply)
    (prompt api_key : string) (include_context streaming : bool)
    (w : Context.world) :
  let w' := snd (Context.generate_response_with_context
                   env post prompt api_key include_context streaming w) in
  (exists tail,
     Context.history_of (Context.session w')
     = Context.history_of (Context.session w)
       ++ Context.Message "user" prompt :: tail /\
     (tail = [] \/ exists a, tail = [Context.Message "assistant" a])) /\
  (exists posted,
     Context.sent w' = Context.sent w ++ posted /\ (List.length posted <= 1)%nat) /\
  directive_of (Context.session w') = directive_of (Context.session w).
Proof.
  destruct streaming.
  - cbv zeta. unfold Context.generate_response_with_context.
    cbn [snd Context.session Context.sent].
    split; [|split].
    + exists []. split; [apply history_of_add | now left].
    + exists []. split; [now rewrite app_nil_r | simpl; lia].
    + apply directive_of_add.
  - destruct (exchange_effect env post prompt api_key include_context w)
      as [Hsent Hhist].
    split; [|split].
    + eexists. split; [exact Hhist|].
      destruct (post _) as [[|[c|] cs]|e|e]; cbn [appended_reply]; auto.
      destruct (String.eqb c ""); [now left | right; now exists c].
    + eexists. split; [exact Hsent | simpl; lia].
    + destruct w as [[[h|] [p|]] log]; destruct include_context;
        unfold Context.generate_response_with_context, Context.generate_response;
        cbn [Context.session Context.sent Context.add_message_to_context
             Context.conversation_history Context.system_prompt
             Context.initialize_conversation_context Context.history_of
             Context.get_conversation_context Context.get_system_prompt
             fst snd app];
        match goal with
        | |- context [post ?r] => destruct (post r) as [[|[c|] cs]|e|e]
        end;
        cbn [Context.success Context.res_content Context.truthy andb negb];
        try (destruct (String.eqb c ""));
        reflexivity.
Qed.

Lemma after_calls_snoc
    (env : Router.environ) (post : Context.request -> Context.http_reply)
    (calls : list call) (c : call) (w : Context.world) :
  after_calls env post (calls ++ [c]) w
  = snd (Context.generate_response_with_context env post
           (call_prompt c) (call_key c) (call_include c) (call_streaming c)
           (after_calls env post calls w)).
Proof.
  unfold after_calls. now rewrite fold_left_app.
Qed.

(** X11.  Only [set_system_prompt] changes the directive: after it is
    set, clearing the conversation and any sequence of calls, returning or
    raising, leave [get_system_prompt] at the value that was set. *)
Theorem system_prompt_survives_clear_and_calls :
  forall (env : Router.environ) (post : Context.request -> Context.http_reply)
         (p : string) (s : Context.session_state) (calls : list call)
         (log : list Context.request),
    fst (Context.get_system_prompt
           (Context.session
              (after_calls env post calls
                 (Context.World
                    (Context.clear_conversation_context
                       (Context.set_system_prompt p s)) log)))) = p.
Proof.
  intros env post p s calls log. rewrite get_system_prompt_directive.
  induction calls as [|c calls IH] using rev_ind.
  - reflexivity.
  - rewrite after_calls_snoc.
    destruct (call_effect env post (call_prompt c) (call_key c)
                (call_include c) (call_streaming c)
                (after_calls env post calls
                   (Context.World
                      (Context.clear_conversation_context
                         (Context.set_system_prompt p s)) log)))
      as (_ & _ & Hd).
    now rewrite Hd.
Qed.

(** X12.  After [clear_conversation_context] the next exchange with
    history posts the directive (when non-empty) and the new prompt only:
    nothing of the earlier conversation is sent, and the directive in force
    is the one from before the clearing. *)
Theorem cleared_context_sends_no_history :
  forall (env : Router.environ) (post : Context.request -> Context.http_reply)
         (prompt api_key : string) (w : Context.world),
    let cleared :=
      Context.World (Context.clear_conversation_context (Context.session w))
                    (Context.sent w) in
    Context.history_of (Context.session cleared) = [] /\
    Context.sent
      (snd (Context.generate_response_with_context
              env post prompt api_key true false cleared))
    = Context.sent w
      ++ [Context.Request api_key (Router.get_model_for_api_key env api_key)
            ((if String.eqb (directive_of (Context.session w)) "" then []
              else [Context.Message "system" (directive_of (Context.session w))])
             ++ [Context.Message "user" prompt])
            4000 0.9%float false].
Proof.
  intros env post prompt api_key w cleared. split; [reflexivity|].
  destruct (exchange_effect env post prompt api_key true cleared) as [Hs _].
  rewrite Hs. reflexivity.
Qed.

Lemma initial_segment_refl {T : Type} (l : list T) : initial_segment l l.
Proof. exists []. now rewrite app_nil_r. Qed.

Lemma initial_segment_app {T : Type} (l1 l2 extra : list T) :
  initial_segment l1 l2 -> initial_segment l1 (l2 ++ extra).
Proof.
  intros [rest ->]. exists (rest ++ extra). now rewrite app_assoc.
Qed.

(** X13.  The context is append-only: after any sequence of calls the
    earlier history is an initial segment of the stored history, which has
    grown by at least one and at most two messages per call, and the log of
    posted payloads has only grown, by at most one payload per call. *)
Theorem context_is_append_only :
  forall (env : Router.environ) (post : Context.request -> Context.http_reply)
         (calls : list call) (w : Context.world),
    let w' := after_calls env post calls w in
    let h := Context.history_of (Context.session w) in
    let h' := Context.history_of (Context.session w') in
    initial_segment h h' /\
    (List.length h + List.length calls <= List.length h')%nat /\
    (List.length h' <= List.length h + 2 * List.length calls)%nat /\
    initial_segment (Context.sent w) (Context.sent w') /\
    (List.length (Context.sent w')
     <= List.length (Context.sent w) + List.length calls)%nat.
Proof.
  intros env post calls w. cbv zeta.
  induction calls as [|c calls IH] using rev_ind.
  - cbn. repeat split; try apply initial_segment_refl; lia.
  - rewrite after_calls_snoc.
    destruct (call_effect env post (call_prompt c) (call_key c)
                (call_include c) (call_streaming c)
                (after_calls env post calls w))
      as ((tail & Hh & Ht) & (posted & Hs & Hp) & _).
    destruct IH as (I1 & I2 & I3 & I4 & I5).
    rewrite Hh, Hs, !length_app. cbn [List.length].
    assert (Hlen : (List.length tail <= 1)%nat).
    { destruct Ht as [->|[a ->]]; simpl; lia. }
    repeat split; try (now apply initial_segment_app); lia.
Qed.

(** X14.  A call with [streaming] set returns a failure result and posts
    nothing, but the prompt has been appended to the context: the next
    exchange with history sends it, unanswered, right before its own
    prompt. *)
Theorem streaming_call_is_refused_but_recorded :
  forall (env : Router.environ) (post : Context.request -> Context.http_reply)
         (prompt api_key next key2 : string) (include_context : bool)
         (w : Context.world),
    let r := Context.generate_response_with_context
               env post prompt api_key include_context true w in
    let w2 := snd (Context.generate_response_with_context
                     env post next key2 true false (snd r)) in
    (exists rsp, fst r = Context.Returned rsp /\
                 Context.rsp_success rsp = false /\
                 Context.rsp_content rsp = None /\
                 Context.rsp_error rsp <> None /\
                 Context.response_tokens rsp = 0) /\
    Context.sent (snd r) = Context.sent w /\
    exists req2,
      Context.sent w2 = Context.sent w ++ [req2] /\
      exists before,
        Context.messages req2
        = before ++ [Context.Message "user" prompt; Context.Message "user" next].
Proof.
  intros env post prompt api_key next key2 include_context w r w2.
  destruct (streaming_exchange_keeps_user_message
              env post prompt api_key include_context w) as [Hs Hh].
  fold r in Hs, Hh.
  split; [|split; [exact Hs|]].
  - subst r. unfold Context.generate_response_with_context. cbn [fst].
    eexists. split; [reflexivity|]. cbn. repeat split. discriminate.
  - destruct (exchange_effect env post next key2 true (snd r)) as [Hs2 _].
    fold w2 in Hs2. rewrite Hs in Hs2.
    eexists. split; [exact Hs2|].
    unfold expected_request, expected_messages. cbn [Context.messages].
    rewrite Hh.
    exists ((if String.eqb (directive_of (Context.session (snd r))) "" then []
             else [Context.Message "system"
                     (directive_of (Context.session (snd r)))])
            ++ Context.history_of (Context.session w)).
    now rewrite <- !app_assoc.
Qed.

(** X15.  A non-streaming call returns a result only when the reply
    carries a string content; the result is then successful and holds the
    content, the token counts [len // 4] of prompt and content and the
    routed model.  Every other reply (transport error, no choices, null
    content) makes the call raise [TypeError] instead of returning its
    failure result. *)
Theorem exchange_returns_only_with_content :
  forall (env : Router.environ) (post : Context.request -> Context.http_reply)
         (prompt api_key : string) (include_context : bool) (w : Context.world),
    let req := expected_request env (Context.session w) prompt api_key
                 include_context in
    let out := fst (Context.generate_response_with_context
                      env post prompt api_key include_context false w) in
    match post req with
    | Context.Body (Some c :: _) =>
        out = Context.Returned
                (Context.Response true (Some c) None
                   (count_tokens prompt) (count_tokens c)
                   (Router.get_model_for_api_key env api_key))
    | _ => out = Context.Raised Context.TypeError
    end.
Proof.
  intros env post prompt api_key include_context w.
  destruct w as [[[h|] [p|]] log]; destruct include_context;
    cbv zeta; unfold expected_request, expected_messages, directive_of;
    unfold Context.generate_response_with_context, Context.generate_response;
    cbn [Context.session Context.sent Context.add_message_to_context
         Context.conversation_history Context.system_prompt
         Context.initialize_conversation_context Context.history_of
         Context.get_conversation_context Context.get_system_prompt
         fst snd app];
    rewrite ?removelast_last;
    unfold Context.build_messages; cbn [app removelast];
    match goal with
    | |- context [post ?r] => destruct (post r) as [[|[c|] cs]|e|e]
    end;
    reflexivity.
Qed.

(** X16.  Only user and assistant messages are ever stored: if the
    history holds nothing else before a sequence of calls, it holds nothing
    else afterwards.  The system directive is sent with requests but never
    becomes part of the stored history. *)
Theorem context_stores_dialogue_only :
  forall (env : Router.environ) (post : Context.request -> Context.http_reply)
         (calls : list call) (w : Context.world),
    dialogue_only (Context.history_of (Context.session w)) ->
    dialogue_only
      (Context.history_of (Context.session (after_calls env post calls w))).
Proof.
  intros env post calls w H0.
  induction calls as [|c calls IH] using rev_ind; [exact H0|].
  rewrite after_calls_snoc.
  destruct (call_effect env post (call_prompt c) (call_key c)
              (call_include c) (call_streaming c)
              (after_calls env post calls w))
    as ((tail & Hh & Ht) & _ & _).
  rewrite Hh. unfold dialogue_only in *. apply Forall_app. split; [exact IH|].
  constructor; [now left|].
  destruct Ht as [->|[a ->]]; [constructor|].
  constructor; [now right | constructor].
Qed.

Lemma context_stores_dialogue_only_witness :
  let env : Router.environ := fun _ => None in
  let post : Context.request -> Context.http_reply :=
    fun _ => Context.Body [Some "hi there"] in
  let w := Context.World Context.empty_session [] in
  dialogue_only (Context.history_of (Context.session w)) /\
  dialogue_only
    (Context.history_of
       (Context.session
          (after_calls env post
             [Call "hello" "k" true false; Call "again" "k" true true] w))).
Proof.
  intros env post w.
  assert (H0 : dialogue_only (Context.history_of (Context.session w)))
    by constructor.
  split; [exact H0|].
  apply (context_stores_dialogue_only env post
           [Call "hello" "k" true false; Call "again" "k" true true] w H0).
Defined.

(** ** Statistics over a run *)

Section RunFacts.

Context {num : Type} (A : arith num).

Lemma stats_after_update (c : conversation_data num) (d : disk num) :
  fst (load_analytics A true (fst (update_analytics A io_ok c d)))
  = record_conversation A c (fst (load_analytics A true d)).
Proof.
  rewrite update_disk. reflexivity.
Qed.

Lemma apply_all_snoc (cs : list (conversation_data num))
    (c : conversation_data num) (d : disk num) :
  apply_all A (cs ++ [c]) d
  = fst (update_analytics A io_ok c (apply_all A cs d)).
Proof.
  unfold apply_all. rewrite map_app. cbn [map].
  generalize (map (fun c0 : conversation_data num => (io_ok, c0)) cs) as evs.
  intros evs. revert d.
  induction evs as [|[e c0] r IH]; intros d; cbn [run_updates app].
  - reflexivity.
  - apply IH.
Qed.

Lemma stats_apply_all_snoc (cs : list (conversation_data num))
    (c : conversation_data num) :
  fst (load_analytics A true (apply_all A (cs ++ [c]) None))
  = record_conversation A c (fst (load_analytics A true (apply_all A cs None))).
Proof.
  rewrite apply_all_snoc. apply stats_after_update.
Qed.

Lemma dict_get_set_same (k : string) (v : Z) (d : dict) :
  dict_get k (dict_set k v d) = Some v.
Proof.
  induction d as [|[k' v'] r IH]; simpl.
  - now rewrite String.eqb_refl.
  - destruct (String.eqb k k') eqn:E; simpl; rewrite E; [reflexivity | exact IH].
Qed.

Lemma dict_get_set_other (k k' : string) (v : Z) (d : dict) :
  k' <> k -> dict_get k' (dict_set k v d) = dict_get k' d.
Proof.
  intros Hne. induction d as [|[k0 v0] r IH]; simpl.
  - destruct (String.eqb_spec k' k); [contradiction | reflexivity].
  - destruct (String.eqb_spec k k0) as [->|Hk]; simpl.
    + destruct (String.eqb_spec k' k0); [contradiction | reflexivity].
    + now rewrite IH.
Qed.

Lemma dict_get_count_one (k k' : string) (d : dict) :
  dict_get k' (count_one k d)
  = if String.eqb k k'
    then Some (match dict_get k d with Some v => v + 1 | None => 1 end)
    else dict_get k' d.
Proof.
  unfold count_one. destruct (String.eqb_spec k k') as [->|Hne].
  - destruct (dict_get k' d); apply dict_get_set_same.
  - destruct (dict_get k d); apply dict_get_set_other; congruence.
Qed.

End RunFacts.

Lemma occurrences_snoc {num : Type} (f : conversation_data num -> string)
    (k : string) (cs : list (conversation_data num)) (c : conversation_data num) :
  occurrences f k (cs ++ [c])
  = occurrences f k cs + (if String.eqb (f c) k then 1 else 0).
Proof.
  unfold occurrences. rewrite filter_app, length_app. cbn [filter].
  destruct (String.eqb (f c) k); simpl; lia.
Qed.

Lemma occurrences_nonneg {num : Type} (f : conversation_data num -> string)
    (k : string) (cs : list (conversation_data num)) :
  0 <= occurrences f k cs.
Proof. unfold occurrences. lia. Qed.

Lemma tokens_of_snoc {num : Type} (cs : list (conversation_data num))
    (c : conversation_data num) :
  tokens_of (cs ++ [c]) = tokens_of cs + total_tokens c.
Proof.
  unfold tokens_of. induction cs as [|x r IH]; simpl; lia.
Qed.

(** X17.  On a file system that does not fail, after the conversations
    [cs] have been recorded from an empty disk, [total_conversations] is
    their number and [total_tokens] the sum of their token totals. *)
Theorem totals_count_every_conversation :
  forall (num : Type) (A : arith num) (cs : list (conversation_data num)),
    let a := fst (load_analytics A true (apply_all A cs None)) in
    total_conversations a = Z.of_nat (List.length cs) /\
    stat_total_tokens a = tokens_of cs.
Proof.
  intros num A cs. cbv zeta.
  induction cs as [|c cs IH] using rev_ind.
  - split; reflexivity.
  - rewrite stats_apply_all_snoc, length_app, tokens_of_snoc.
    destruct IH as [IH1 IH2]. cbn [record_conversation total_conversations
      stat_total_tokens List.length]. split; lia.
Qed.

(** X18.  On a file system that does not fail, the tables count by key:
    [model_usage[m]] is the number of recorded conversations with model
    [m], and [m] is absent when there is none; likewise [user_activity]
    for user names. *)
Theorem usage_tables_count_by_key :
  forall (num : Type) (A : arith num) (cs : list (conversation_data num))
         (k : string),
    let a := fst (load_analytics A true (apply_all A cs None)) in
    dict_get k (model_usage a)
    = (if occurrences (@model num) k cs =? 0 then None
       else Some (occurrences (@model num) k cs)) /\
    dict_get k (user_activity a)
    = (if occurrences (@username num) k cs =? 0 then None
       else Some (occurrences (@username num) k cs)).
Proof.
  intros num A cs k. cbv zeta.
  induction cs as [|c cs IH] using rev_ind.
  - split; reflexivity.
  - rewrite stats_apply_all_snoc, !occurrences_snoc.
    destruct IH as [IHm IHu].
    cbn [record_conversation model_usage user_activity].
    rewrite !dict_get_count_one.
    pose proof (occurrences_nonneg (@model num) k cs) as Pm.
    pose proof (occurrences_nonneg (@username num) k cs) as Pu.
    split.
    + destruct (String.eqb_spec (model c) k) as [->|Hne].
      * rewrite IHm.
        destruct (Z.eqb_spec (occurrences (@model num) k cs) 0) as [E|E];
          destruct (Z.eqb_spec (occurrences (@model num) k cs + 1) 0);
          try lia; [now rewrite E | reflexivity].
      * rewrite Z.add_0_r. exact IHm.
    + destruct (String.eqb_spec (username c) k) as [->|Hne].
      * rewrite IHu.
        destruct (Z.eqb_spec (occurrences (@username num) k cs) 0) as [E|E];
          destruct (Z.eqb_spec (occurrences (@username num) k cs + 1) 0);
          try lia; [now rewrite E | reflexivity].
      * rewrite Z.add_0_r. exact IHu.
Qed.

Lemma dict_get_none_not_key (k : string) (d : dict) :
  dict_get k d = None -> ~ In k (map fst d).
Proof.
  induction d as [|[k' v] r IH]; simpl; intros H; [tauto|].
  destruct (String.eqb_spec k k') as [->|Hne]; [discriminate|].
  intros [E|E]; [congruence | now apply IH].
Qed.

Lemma dict_set_keys_present (k : string) (v w : Z) (d : dict) :
  dict_get k d = Some w -> map fst (dict_set k v d) = map fst d.
Proof.
  induction d as [|[k' v'] r IH]; simpl; intros H; [discriminate|].
  destruct (String.eqb k k'); simpl; [reflexivity|]. now rewrite IH.
Qed.

Lemma dict_set_keys_fresh (k : string) (v : Z) (d : dict) :
  dict_get k d = None -> map fst (dict_set k v d) = map fst d ++ [k].
Proof.
  induction d as [|[k' v'] r IH]; simpl; intros H; [reflexivity|].
  destruct (String.eqb k k'); [discriminate|]. simpl. now rewrite IH.
Qed.

Lemma dict_set_values (k : string) (v : Z) (d : dict) (P : Z -> Prop) :
  P v -> Forall (fun kv => P (snd kv)) d ->
  Forall (fun kv => P (snd kv)) (dict_set k v d).
Proof.
  intros Hv. induction 1 as [|[k' v'] r Hx Hr IH]; simpl.
  - constructor; [exact Hv | constructor].
  - destruct (String.eqb k k'); constructor; assumption.
Qed.

Lemma dict_get_in (k : string) (w : Z) (d : dict) :
  dict_get k d = Some w -> In (k, w) d.
Proof.
  induction d as [|[k' v] r IH]; simpl; [discriminate|].
  destruct (String.eqb_spec k k') as [->|Hne].
  - intros H. injection H as ->. now left.
  - intros H. right. now apply IH.
Qed.

Lemma well_formed_count_one (k : string) (d : dict) :
  well_formed_table d -> well_formed_table (count_one k d).
Proof.
  intros [Hnd Hpos]. unfold count_one.
  destruct (dict_get k d) as [w|] eqn:E.
  - split.
    + now rewrite dict_set_keys_present with (w := w).
    + apply dict_set_values with (P := fun z => 1 <= z); [|exact Hpos].
      apply dict_get_in in E. rewrite Forall_forall in Hpos.
      specialize (Hpos _ E). simpl in Hpos. lia.
  - split.
    + rewrite dict_set_keys_fresh by exact E.
      apply NoDup_app; [exact Hnd | repeat constructor; simpl; tauto |].
      intros x Hx [<-|[]]. now apply (dict_get_none_not_key _ _ E).
    + apply dict_set_values with (P := fun z => 1 <= z); [lia | exact Hpos].
Qed.

Section TableFacts.

Context {num : Type} (A : arith num).

Lemma well_formed_empty : well_formed_table [].
Proof. split; constructor. Qed.

Lemma disk_well_formed_load (r : bool) (d : disk num) :
  disk_well_formed d ->
  let a := fst (load_analytics A r d) in
  well_formed_table (model_usage a) /\ well_formed_table (user_activity a) /\
  0 <= total_conversations a.
Proof.
  intros H. destruct d as [[a|]|]; destruct r; cbn;
    try (repeat split; (apply well_formed_empty || lia || constructor)).
  now apply H.
Qed.

Lemma disk_well_formed_update (e : io) (c : conversation_data num) (d : disk num) :
  disk_well_formed d -> disk_well_formed (fst (update_analytics A e c d)).
Proof.
  intros H. rewrite update_disk.
  pose proof (disk_well_formed_load (readable e) H) as Hl. cbv zeta in Hl.
  destruct Hl as (Hm & Hu & Ht).
  destruct (write e); cbn [save_analytics fst].
  - intros a Ha. injection Ha as <-.
    cbn [record_conversation model_usage user_activity total_conversations].
    repeat split; try (now apply well_formed_count_one); lia.
  - exact H.
  - intros a Ha. discriminate.
Qed.

Lemma disk_well_formed_run (evs : list (io * conversation_data num)) (d : disk num) :
  disk_well_formed d -> disk_well_formed (run_updates A evs d).
Proof.
  revert d. induction evs as [|[e c] r IH]; simpl; intros d H; [exact H|].
  apply IH. now apply disk_well_formed_update.
Qed.

End TableFacts.

(** X19.  Starting from no persisted statistics, after any sequence of
    [update_analytics] calls, whatever the file system does at each call,
    both tables have distinct keys and only counts of at least one, and
    [total_conversations] is not negative. *)
Theorem usage_tables_stay_well_formed :
  forall (num : Type) (A : arith num)
         (evs : list (io * conversation_data num)) (can_read : bool),
    let a := fst (load_analytics A can_read (run_updates A evs None)) in
    well_formed_table (model_usage a) /\
    well_formed_table (user_activity a) /\
    0 <= total_conversations a.
Proof.
  intros num A evs can_read.
  apply disk_well_formed_load, disk_well_formed_run.
  intros a Ha. discriminate.
Qed.

(** X20.  A statistics file that exists but cannot be loaded (unreadable,
    or rejected by the JSON parser) is overwritten by the next successful
    update: the load error is reported and the file then counts the new
    conversation alone, whatever it held before. *)
Theorem unloadable_file_restarts_statistics :
  forall (num : Type) (A : arith num) (e : io) (c : conversation_data num)
         (f : file num),
    write e = WriteOk ->
    f = Corrupt \/ readable e = false ->
    let r := update_analytics A e c (Some f) in
    snd r = [ErrorLoadingAnalytics] /\
    exists a,
      fst r = Some (Doc a) /\
      total_conversations a = 1 /\
      stat_total_tokens a = total_tokens c /\
      model_usage a = [(model c, 1)] /\
      user_activity a = [(username c, 1)].
Proof.
  intros num A e c f Hw Hf r. subst r.
  rewrite update_messages, update_disk, Hw.
  assert (Hl : load_analytics A (readable e) (Some f)
               = (default_analytics A, [ErrorLoadingAnalytics])).
  { destruct Hf as [-> | ->]; [now destruct (readable e) | now destruct f]. }
  rewrite Hl. cbn [fst snd save_analytics app].
  split; [reflexivity|]. eexists. split; [reflexivity|].
  repeat split.
Qed.

Lemma unloadable_file_restarts_statistics_witness :
  let c := new_conversation_data "ann" "m" 1.5%float 3 5 in
  let old := Analytics 40 9000 2%float [("m", 40)] [("bob", 40)] in
  write (IO false WriteOk) = WriteOk /\
  snd (update_analytics Binary64.ops (IO false WriteOk) c (Some (Doc old)))
  = [ErrorLoadingAnalytics].
Proof.
  intros c old. split; [reflexivity|].
  apply (@unloadable_file_restarts_statistics float Binary64.ops
           (IO false WriteOk) c (Doc old) eq_refl).
  right. reflexivity.
Defined.

(** ** The top lists and the token count *)

Lemma sorted_split_cross (l1 l2 : list (string * Z)) :
  StronglySorted (fun a b => snd b <= snd a) (l1 ++ l2) ->
  forall x y, In x l1 -> In y l2 -> snd y <= snd x.
Proof.
  induction l1 as [|a r IH]; intros Hs x y Hx Hy; [contradiction|].
  cbn [app] in Hs. inversion Hs as [|? ? Hs' Hall]; subst.
  destruct Hx as [<-|Hx].
  - rewrite Forall_forall in Hall. apply Hall, in_or_app. now right.
  - now apply (IH Hs').
Qed.

Lemma top_five_of_table (t : list (string * Z)) :
  let top := firstn 5 (sorted_by_count_desc t) in
  exists rest,
    Permutation t (top ++ rest) /\
    List.length top = Nat.min 5 (List.length t) /\
    forall x y, In x top -> In y rest -> snd y <= snd x.
Proof.
  cbv zeta. destruct (sorted_by_count_desc_spec t) as (Hp & Hs & _).
  exists (skipn 5 (sorted_by_count_desc t)).
  rewrite firstn_skipn. split; [exact Hp|]. split.
  - rewrite length_firstn, (Permutation_length Hp). reflexivity.
  - apply sorted_split_cross. now rewrite firstn_skipn.
Qed.

(** X21.  The top lists of the summary hold the largest counts: each has
    five entries, or all of the table when it has fewer, and together with
    the entries left out it is a rearrangement of the table in which no
    entry left out has a larger count than a listed one. *)
Theorem summary_tops_hold_the_largest_counts :
  forall (num : Type) (A : arith num) (a : analytics num),
    let s := summary_of A a in
    (exists rest,
       Permutation (model_usage a) (top_models s ++ rest) /\
       List.length (top_models s) = Nat.min 5 (List.length (model_usage a)) /\
       forall x y, In x (top_models s) -> In y rest -> snd y <= snd x) /\
    (exists rest,
       Permutation (user_activity a) (top_users s ++ rest) /\
       List.length (top_users s) = Nat.min 5 (List.length (user_activity a)) /\
       forall x y, In x (top_users s) -> In y rest -> snd y <= snd x).
Proof.
  intros num A a s. split.
  - apply (top_five_of_table (model_usage a)).
  - apply (top_five_of_table (user_activity a)).
Qed.

Lemma py_len_append (a b : string) :
  py_len (a ++ b) = (py_len a + py_len b)%nat.
Proof.
  induction a as [|x a IH]; cbn [append py_len]; [reflexivity|].
  rewrite IH. now destruct (is_continuation x).
Qed.

Lemma py_len_le_length (a : string) : (py_len a <= String.length a)%nat.
Proof.
  induction a as [|x a IH]; cbn [py_len String.length]; [lia|].
  destruct (is_continuation x); lia.
Qed.

(** X22.  [count_tokens] is the number of code points divided by four,
    rounded down: it is never negative, four times the count does not
    exceed [len(text)] and misses it by at most three, so a text of fewer
    than four characters counts zero tokens; the count of a concatenation
    is the sum of the counts or one more.  [len] counts code points, not
    bytes: the two-character text "日本" (six bytes) counts zero tokens. *)
Theorem count_tokens_bounds :
  forall a b : string,
    0 <= count_tokens a /\
    4 * count_tokens a <= Z.of_nat (py_len a) <= 4 * count_tokens a + 3 /\
    ((py_len a < 4)%nat -> count_tokens a = 0) /\
    count_tokens a + count_tokens b <= count_tokens (a ++ b)
      <= count_tokens a + count_tokens b + 1 /\
    (py_len a <= String.length a)%nat /\
    py_len "日本" = 2%nat /\ count_tokens "日本" = 0 /\
    py_len "naïve café" = 10%nat /\ count_tokens "naïve café" = 2.
Proof.
  intros a b. unfold count_tokens. rewrite py_len_append, Nat2Z.inj_add.
  pose proof (py_len_le_length a) as Hle.
  set (x := Z.of_nat (py_len a)). set (y := Z.of_nat (py_len b)).
  assert (Hx : 0 <= x) by (unfold x; lia).
  assert (Hy : 0 <= y) by (unfold y; lia).
  pose proof (Z.div_mod x 4 ltac:(lia)) as Dx.
  pose proof (Z.mod_pos_bound x 4 ltac:(lia)) as Mx.
  pose proof (Z.div_mod y 4 ltac:(lia)) as Dy.
  pose proof (Z.mod_pos_bound y 4 ltac:(lia)) as My.
  pose proof (Z.div_mod (x + y) 4 ltac:(lia)) as Dxy.
  pose proof (Z.mod_pos_bound (x + y) 4 ltac:(lia)) as Mxy.
  repeat split; try lia; reflexivity.
Qed.

(** ** Conversation history files *)

Lemma append_assoc (a b c : string) :
  ((a ++ b) ++ c = a ++ (b ++ c))%string.
Proof.
  induction a as [|x a IH]; simpl; [reflexivity | now rewrite IH].
Qed.

Lemma ends_with_append (suffix a : string) :
  History.ends_with suffix (a ++ suffix) = true.
Proof.
  induction a as [|x a IH].
  - cbn [append]. destruct suffix; cbn [History.ends_with];
      now rewrite String.eqb_refl.
  - cbn [append History.ends_with].
    destruct (String.eqb (String x (a ++ suffix)) suffix); [reflexivity | exact IH].
Qed.

Lemma ends_with_split (suffix s : string) :
  History.ends_with suffix s = true -> exists a, s = (a ++ suffix)%string.
Proof.
  induction s as [|x s IH]; cbn [History.ends_with].
  - destruct (String.eqb_spec EmptyString suffix) as [<-|_]; [|discriminate].
    intros _. now exists EmptyString.
  - destruct (String.eqb_spec (String x s) suffix) as [<-|_].
    + intros _. now exists EmptyString.
    + intros H. destruct (IH H) as [a ->]. now exists (String x a).
Qed.

(** The file-name test of [get_user_conversations], spelled out. *)
Lemma matches_spec (user name : string) :
  History.matches user name = true <->
  (exists rest, name = (user ++ "_" ++ rest)%string) /\
  (exists stem, name = (stem ++ ".json")%string).
Proof.
  unfold History.matches. rewrite andb_true_iff, prefix_append. split.
  - intros [[rest ->] He]. split.
    + exists rest. now rewrite append_assoc.
    + now apply ends_with_split.
  - intros [[rest ->] [stem Hs]]. split.
    + exists rest. now rewrite append_assoc.
    + rewrite Hs. apply ends_with_append.
Qed.

Lemma own_file_matches (user : string) (k : History.clock) :
  History.matches user (History.file_name user k) = true.
Proof.
  apply matches_spec. unfold History.file_name. split.
  - now exists (History.file_stamp k ++ ".json")%string.
  - exists (user ++ "_" ++ History.file_stamp k)%string.
    now rewrite !append_assoc.
Qed.

Lemma longer_name_file_matches (user more : string) (k : History.clock) :
  History.matches user (History.file_name (user ++ "_" ++ more) k) = true.
Proof.
  apply matches_spec. unfold History.file_name. split.
  - exists (more ++ "_" ++ History.file_stamp k ++ ".json")%string.
    now rewrite !append_assoc.
  - exists ((user ++ "_" ++ more) ++ "_" ++ History.file_stamp k)%string.
    now rewrite !append_assoc.
Qed.

Section HistoryFacts.

Context {num : Type} (A : arith num).

Lemma put_file_in (name : string) (f : History.hfile num) (files : list (string * History.hfile num)) :
  In (name, f) (History.put_file name f files).
Proof.
  induction files as [|[n g] r IH]; simpl; [now left|].
  destruct (String.eqb_spec n name) as [->|_]; [now left | now right].
Qed.

Lemma put_file_names_present (name : string) (f : History.hfile num)
    (files : list (string * History.hfile num)) :
  In name (map fst files) ->
  map fst (History.put_file name f files) = map fst files.
Proof.
  induction files as [|[n g] r IH]; simpl; [tauto|].
  destruct (String.eqb_spec n name) as [->|Hne]; [reflexivity|].
  intros [E|E]; [contradiction|]. simpl. now rewrite IH.
Qed.

Lemma read_matching_docs (user : string) (files : list (string * History.hfile num))
    (c : History.conversation_record num) :
  In c (fst (History.read_matching user files)) <->
  exists name, In (name, History.HDoc c) files /\ History.matches user name = true.
Proof.
  induction files as [|[n f] r IH]; cbn [History.read_matching].
  - simpl. split; [tauto | intros (name & [] & _)].
  - destruct (History.read_matching user r) as [cs ms]. cbn [fst] in IH.
    destruct (History.matches user n) eqn:M; [destruct f as [c0|]|]; cbn [fst].
    + split.
      * intros [<-|H]; [exists n; split; [now left | exact M]|].
        apply IH in H. destruct H as (name & Hin & Hm).
        exists name. split; [now right | exact Hm].
      * intros (name & [E|Hin] & Hm).
        -- injection E as _ <-. now left.
        -- right. apply IH. now exists name.
    + rewrite IH. split; intros (name & Hin & Hm); exists name.
      * split; [now right | exact Hm].
      * destruct Hin as [E|Hin]; [discriminate | now split].
    + rewrite IH. split; intros (name & Hin & Hm); exists name.
      * split; [now right | exact Hm].
      * destruct Hin as [E|Hin]; [|now split].
        injection E as -> _. congruence.
Qed.

Lemma read_matching_errors (user : string) (files : list (string * History.hfile num))
    (name : string) :
  In (History.ErrorLoadingConversation name)
     (snd (History.read_matching user files)) <->
  In (name, History.HCorrupt) files /\ History.matches user name = true.
Proof.
  induction files as [|[n f] r IH]; cbn [History.read_matching].
  - simpl. tauto.
  - destruct (History.read_matching user r) as [cs ms]. cbn [snd] in IH.
    destruct (History.matches user n) eqn:M; [destruct f as [c0|]|]; cbn [snd].
    + rewrite IH. split; intros [Hin Hm]; (split; [|exact Hm]).
      * now right.
      * destruct Hin as [E|Hin]; [discriminate | exact Hin].
    + split.
      * intros [E|H]; [injection E as ->; split; [now left | exact M]|].
        apply IH in H. destruct H as [Hin Hm]. split; [now right | exact Hm].
      * intros [[E|Hin] Hm].
        -- injection E as ->. now left.
        -- right. apply IH. now split.
    + rewrite IH. split; intros [Hin Hm]; (split; [|exact Hm]).
      * now right.
      * destruct Hin as [E|Hin]; [|exact Hin]. injection E as -> _. congruence.
Qed.

Lemma insert_newest_perm (x : History.conversation_record num)
    (l : list (History.conversation_record num)) :
  Permutation (x :: l) (History.insert_newest x l).
Proof.
  induction l as [|y r IH]; simpl; [apply Permutation_refl|].
  destruct (String.leb (History.timestamp y) (History.timestamp x)).
  - apply Permutation_refl.
  - eapply perm_trans; [apply perm_swap | now apply perm_skip].
Qed.

Lemma newest_first_perm (l : list (History.conversation_record num)) :
  Permutation l (History.newest_first l).
Proof.
  induction l as [|x r IH]; simpl; [apply perm_nil|].
  eapply perm_trans; [apply perm_skip, IH | apply insert_newest_perm].
Qed.



End HistoryFacts.

Section HistoryProperties.

Context {num : Type} (A : arith num).

(** A conversation written to the directory is listed for every user name
    whose file-name test the written file passes. *)
Lemma written_file_is_listed (lister name : string)
    (c : History.conversation_record num)
    (files : list (string * History.hfile num)) (ok : bool) :
  History.matches lister name = true ->
  exists cs ms,
    fst (History.get_user_conversations ok lister
           (Some (History.put_file name (History.HDoc c) files)))
    = Some (cs, ms) /\ In c cs.
Proof.
  intros Hm. unfold History.get_user_conversations.
  cbn [History.ensure_history_dir].
  pose proof (read_matching_docs lister
                (History.put_file name (History.HDoc c) files) c) as Hd.
  destruct (History.read_matching lister
              (History.put_file name (History.HDoc c) files)) as [cs ms].
  cbn [fst] in *. eexists. eexists. split; [reflexivity|].
  eapply Permutation_in; [apply newest_first_perm|].
  apply Hd. exists name. split; [apply put_file_in | exact Hm].
Qed.

Lemma save_conversation_ok (k : History.clock) (hi : History.hio) (e : io)
    (user p r m : string) (t : num) (ptok rtok : Z)
    (h : History.history_dir num) (d : disk num) :
  History.hwrite hi = WriteOk ->
  (h = None -> History.mkdir_ok hi = true) ->
  exists files,
    History.ensure_history_dir (History.mkdir_ok hi) h = Some files /\
    (h = None -> files = []) /\ (forall fs, h = Some fs -> files = fs) /\
    History.save_conversation A k hi e user p r m t ptok rtok h d
    = (History.Saved ("conversation_history/" ++ History.file_name user k)%string,
       Some (History.put_file (History.file_name user k)
               (History.HDoc (History.ConversationRecord (History.stamp k) p r
                                (new_conversation_data user m t ptok rtok)))
               files),
       fst (update_analytics A e (new_conversation_data user m t ptok rtok) d),
       snd (update_analytics A e (new_conversation_data user m t ptok rtok) d)).
Proof.
  intros Hw Hmk. unfold History.save_conversation.
  destruct h as [fs|].
  - exists fs. cbn [History.ensure_history_dir]. rewrite Hw.
    destruct (update_analytics A e _ d). repeat split; congruence.
  - rewrite (Hmk eq_refl). exists []. cbn [History.ensure_history_dir].
    rewrite Hw. destruct (update_analytics A e _ d).
    repeat split; congruence.
Qed.

End HistoryProperties.

(** X23.  A conversation that [save_conversation] has written is returned
    by [get_user_conversations] for the same user, with the timestamp,
    texts, model, latency and token counts that were passed in and their
    sum as [total_tokens]; the returned name is the file's path. *)
Theorem saved_conversation_is_listed :
  forall (num : Type) (A : arith num) (k : History.clock) (hi : History.hio)
         (e : io) (user p r m : string) (t : num) (ptok rtok : Z)
         (h : History.history_dir num) (d : disk num) (ok : bool),
    History.hwrite hi = WriteOk ->
    (h = None -> History.mkdir_ok hi = true) ->
    let s := History.save_conversation A k hi e user p r m t ptok rtok h d in
    fst (fst (fst s))
    = History.Saved ("conversation_history/" ++ user ++ "_"
                     ++ History.file_stamp k ++ ".json")%string /\
    exists cs ms,
      fst (History.get_user_conversations ok user (snd (fst (fst s))))
      = Some (cs, ms) /\
      In (History.ConversationRecord (History.stamp k) p r
            (ConversationData user m t ptok rtok (ptok + rtok))) cs.
Proof.
  intros num A k hi e user p r m t ptok rtok h d ok Hw Hmk s. subst s.
  destruct (@save_conversation_ok num A k hi e user p r m t ptok rtok h d Hw Hmk)
    as (files & _ & _ & _ & ->).
  cbn [fst snd]. split; [reflexivity|].
  apply written_file_is_listed, own_file_matches.
Qed.

Lemma saved_conversation_is_listed_witness :
  let k := History.Clock "2024-05-01 10:00:00" "20240501_100000" in
  let hi := History.HIO true WriteOk in
  let s := History.save_conversation Binary64.ops k hi io_ok
             "ann" "hi" "hello" "m" 1.5%float 3 5 None None in
  History.hwrite hi = WriteOk /\
  fst (fst (fst s))
  = History.Saved "conversation_history/ann_20240501_100000.json".
Proof.
  intros k hi s. split; [reflexivity|].
  apply (@saved_conversation_is_listed float Binary64.ops k hi io_ok
           "ann" "hi" "hello" "m" 1.5%float 3 5 None None true eq_refl).
  reflexivity.
Defined.

(** X24.  The file-name test only compares a prefix: a conversation saved
    by a user named [user ++ "_" ++ more] is also returned by
    [get_user_conversations] for [user]. *)
Theorem conversations_of_longer_names_are_listed :
  forall (num : Type) (A : arith num) (k : History.clock) (hi : History.hio)
         (e : io) (user more p r m : string) (t : num) (ptok rtok : Z)
         (h : History.history_dir num) (d : disk num) (ok : bool),
    History.hwrite hi = WriteOk ->
    (h = None -> History.mkdir_ok hi = true) ->
    let other := (user ++ "_" ++ more)%string in
    let s := History.save_conversation A k hi e other p r m t ptok rtok h d in
    exists cs ms,
      fst (History.get_user_conversations ok user (snd (fst (fst s))))
      = Some (cs, ms) /\
      In (History.ConversationRecord (History.stamp k) p r
            (new_conversation_data other m t ptok rtok)) cs.
Proof.
  intros num A k hi e user more p r m t ptok rtok h d ok Hw Hmk other s.
  subst s.
  destruct (@save_conversation_ok num A k hi e other p r m t ptok rtok h d Hw Hmk)
    as (files & _ & _ & _ & ->).
  cbn [fst snd]. apply written_file_is_listed.
  apply longer_name_file_matches.
Qed.

Lemma conversations_of_longer_names_are_listed_witness :
  let k := History.Clock "2024-05-01 10:00:00" "20240501_100000" in
  let hi := History.HIO true WriteOk in
  let s := History.save_conversation Binary64.ops k hi io_ok
             "ann_lee" "private" "reply" "m" 1.5%float 3 5 None None in
  History.hwrite hi = WriteOk /\
  exists cs ms,
    fst (History.get_user_conversations true "ann" (snd (fst (fst s))))
    = Some (cs, ms) /\
    In (History.ConversationRecord "2024-05-01 10:00:00" "private" "reply"
          (new_conversation_data "ann_lee" "m" 1.5%float 3 5)) cs.
Proof.
  intros k hi s. split; [reflexivity|].
  apply (@conversations_of_longer_names_are_listed float Binary64.ops k hi io_ok
           "ann" "lee" "private" "reply" "m" 1.5%float 3 5 None None true eq_refl).
  reflexivity.
Defined.

(** X25.  Two conversations of one user saved within the same second
    share one file name: the second save creates no new file and replaces
    the content of the first, while the statistics count both. *)
Theorem same_second_saves_share_one_file :
  forall (num : Type) (A : arith num) (k1 k2 : History.clock)
         (hi1 hi2 : History.hio) (user p1 r1 m1 p2 r2 m2 : string)
         (t1 t2 : num) (ptok1 rtok1 ptok2 rtok2 : Z)
         (h : History.history_dir num) (d : disk num),
    History.file_stamp k1 = History.file_stamp k2 ->
    History.hwrite hi1 = WriteOk ->
    History.hwrite hi2 = WriteOk ->
    (h = None -> History.mkdir_ok hi1 = true) ->
    let s1 := History.save_conversation A k1 hi1 io_ok
                user p1 r1 m1 t1 ptok1 rtok1 h d in
    let s2 := History.save_conversation A k2 hi2 io_ok
                user p2 r2 m2 t2 ptok2 rtok2
                (snd (fst (fst s1))) (snd (fst s1)) in
    exists files1 files2,
      snd (fst (fst s1)) = Some files1 /\
      snd (fst (fst s2)) = Some files2 /\
      map fst files2 = map fst files1 /\
      In (History.file_name user k1,
          History.HDoc (History.ConversationRecord (History.stamp k2) p2 r2
                          (new_conversation_data user m2 t2 ptok2 rtok2)))
         files2 /\
      total_conversations (fst (load_analytics A true (snd (fst s2))))
      = total_conversations (fst (load_analytics A true d)) + 2.
Proof.
  intros num A k1 k2 hi1 hi2 user p1 r1 m1 p2 r2 m2 t1 t2
         ptok1 rtok1 ptok2 rtok2 h d Hk Hw1 Hw2 Hmk s1 s2.
  destruct (@save_conversation_ok num A k1 hi1 io_ok user p1 r1 m1 t1
              ptok1 rtok1 h d Hw1 Hmk) as (files & _ & _ & _ & E1).
  subst s2. subst s1. rewrite E1. cbn [fst snd].
  assert (Hmk2 : Some (History.put_file (History.file_name user k1)
                         (History.HDoc
                            (History.ConversationRecord (History.stamp k1) p1 r1
                               (new_conversation_data user m1 t1 ptok1 rtok1)))
                         files) = None -> History.mkdir_ok hi2 = true)
    by discriminate.
  destruct (@save_conversation_ok num A k2 hi2 io_ok user p2 r2 m2 t2
              ptok2 rtok2 _ (fst (update_analytics A io_ok
                 (new_conversation_data user m1 t1 ptok1 rtok1) d)) Hw2 Hmk2)
    as (files' & _ & _ & Hf & E2).
  rewrite E2. cbn [fst snd]. rewrite (Hf _ eq_refl).
  assert (Hn : History.file_name user k2 = History.file_name user k1).
  { unfold History.file_name. now rewrite Hk. }
  rewrite Hn.
  eexists. eexists. split; [reflexivity|]. split; [reflexivity|].
  split; [|split].
  - apply put_file_names_present.
    apply (in_map fst _ _ (put_file_in _ _ _)).
  - apply put_file_in.
  - rewrite !stats_after_update.
    cbn [record_conversation total_conversations]. lia.
Qed.

Lemma same_second_saves_share_one_file_witness :
  let k1 := History.Clock "2024-05-01 10:00:00" "20240501_100000" in
  let k2 := History.Clock "2024-05-01 10:00:00" "20240501_100000" in
  let hi := History.HIO true WriteOk in
  let s1 := History.save_conversation Binary64.ops k1 hi io_ok
              "ann" "first" "one" "m" 1.5%float 3 5 None None in
  let s2 := History.save_conversation Binary64.ops k2 hi io_ok
              "ann" "second" "two" "m" 2.5%float 1 1
              (snd (fst (fst s1))) (snd (fst s1)) in
  History.file_stamp k1 = History.file_stamp k2 /\
  exists files1 files2,
    snd (fst (fst s1)) = Some files1 /\
    snd (fst (fst s2)) = Some files2 /\
    map fst files2 = map fst files1.
Proof.
  intros k1 k2 hi s1 s2. split; [reflexivity|].
  destruct (@same_second_saves_share_one_file float Binary64.ops k1 k2 hi hi
              "ann" "first" "one" "m" "second" "two" "m"
              1.5%float 2.5%float 3 5 1 1 None None
              eq_refl eq_refl eq_refl (fun _ => eq_refl))
    as (f1 & f2 & H1 & H2 & H3 & _).
  exists f1, f2. repeat split; assumption.
Defined.

(** X26.  When the directory cannot be created or the conversation file
    cannot be written, [save_conversation] raises before it reaches the
    statistics: the statistics file is untouched and nothing is reported.
    A write that failed after the file was opened leaves a file that
    [get_user_conversations] reports as unloadable for that user. *)
Theorem failed_history_write_skips_statistics :
  forall (num : Type) (A : arith num) (k : History.clock) (hi : History.hio)
         (e : io) (user p r m : string) (t : num) (ptok rtok : Z)
         (h : History.history_dir num) (d : disk num),
    History.hwrite hi <> WriteOk \/ (h = None /\ History.mkdir_ok hi = false) ->
    let s := History.save_conversation A k hi e user p r m t ptok rtok h d in
    fst (fst (fst s)) = History.Failed History.OSError /\
    snd (fst s) = d /\
    snd s = [] /\
    (History.hwrite hi = DumpFails ->
     (h = None -> History.mkdir_ok hi = true) ->
     forall ok, exists cs ms,
       fst (History.get_user_conversations ok user (snd (fst (fst s))))
       = Some (cs, ms) /\
       In (History.ErrorLoadingConversation (History.file_name user k)) ms).
Proof.
  intros num A k hi e user p r m t ptok rtok h d Hfail s. subst s.
  unfold History.save_conversation.
  destruct h as [fs|]; cbn [History.ensure_history_dir].
  - destruct Hfail as [Hw|[Hn _]]; [|discriminate].
    destruct (History.hwrite hi) eqn:W; [now contradiction Hw | |];
      cbn [fst snd]; repeat split; try discriminate.
    intros _ _ ok. unfold History.get_user_conversations.
    cbn [History.ensure_history_dir].
    pose proof (read_matching_errors user
                  (History.put_file (History.file_name user k)
                     History.HCorrupt fs)
                  (History.file_name user k)) as He.
    destruct (History.read_matching user _) as [cs ms]. cbn [fst snd] in *.
    eexists. eexists. split; [reflexivity|].
    apply He. split; [apply put_file_in | apply own_file_matches].
  - destruct (History.mkdir_ok hi) eqn:M.
    + destruct Hfail as [Hw|[_ Hm]]; [|discriminate].
      destruct (History.hwrite hi) eqn:W; [now contradiction Hw | |];
        cbn [fst snd]; repeat split; try discriminate.
      intros _ _ ok. unfold History.get_user_conversations.
      cbn [History.ensure_history_dir History.put_file History.read_matching].
      rewrite own_file_matches. cbn [fst snd].
      eexists. eexists. split; [reflexivity | now left].
    + cbn [fst snd]. repeat split. intros _ H. now specialize (H eq_refl).
Qed.

Lemma failed_history_write_skips_statistics_witness :
  let k := History.Clock "2024-05-01 10:00:00" "20240501_100000" in
  let hi := History.HIO true OpenFails in
  let old := Some (Doc (Analytics 4 90 2%float [("m", 4)] [("bob", 4)])) in
  let s := History.save_conversation Binary64.ops k hi io_ok
             "ann" "hi" "hello" "m" 1.5%float 3 5 None old in
  (History.hwrite hi <> WriteOk \/
   (@None (list (string * History.hfile float)) = None /\
    History.mkdir_ok hi = false)) /\
  snd (fst s) = old.
Proof.
  intros k hi old s.
  assert (H : History.hwrite hi <> WriteOk \/
              (@None (list (string * History.hfile float)) = None /\
               History.mkdir_ok hi = false)) by (left; discriminate).
  split; [exact H|].
  apply (@failed_history_write_skips_statistics float Binary64.ops k hi io_ok
           "ann" "hi" "hello" "m" 1.5%float 3 5 None old H).
Defined.


(** ** Order of the tables *)

Lemma dict_get_existsb (k : string) (d : dict) :
  existsb (String.eqb k) (map fst d)
  = match dict_get k d with Some _ => true | None => false end.
Proof.
  induction d as [|[k' v] r IH]; simpl; [reflexivity|].
  destruct (String.eqb k k'); [reflexivity | exact IH].
Qed.

Lemma count_one_keys (k : string) (d : dict) :
  map fst (count_one k d)
  = if existsb (String.eqb k) (map fst d) then map fst d else map fst d ++ [k].
Proof.
  rewrite dict_get_existsb. unfold count_one.
  destruct (dict_get k d) as [w|] eqn:E.
  - now apply dict_set_keys_present with (w := w).
  - now apply dict_set_keys_fresh.
Qed.

Lemma first_uses_snoc (l : list string) (k : string) :
  first_uses (l ++ [k])
  = if existsb (String.eqb k) (first_uses l) then first_uses l
    else first_uses l ++ [k].
Proof.
  unfold first_uses. now rewrite fold_left_app.
Qed.

(** X28.  On a file system that does not fail, the tables list their keys
    in the order of first use: the keys of [model_usage] are the distinct
    models of the recorded conversations, each at the place of its first
    conversation, and likewise the keys of [user_activity]; this is the
    order in which the summary breaks ties. *)
Theorem tables_keep_first_use_order :
  forall (num : Type) (A : arith num) (cs : list (conversation_data num)),
    let a := fst (load_analytics A true (apply_all A cs None)) in
    map fst (model_usage a) = first_uses (map (@model num) cs) /\
    map fst (user_activity a) = first_uses (map (@username num) cs).
Proof.
  intros num A cs. cbv zeta.
  induction cs as [|c cs IH] using rev_ind.
  - split; reflexivity.
  - rewrite stats_apply_all_snoc, !map_app. cbn [map].
    rewrite !first_uses_snoc. destruct IH as [IHm IHu].
    cbn [record_conversation model_usage user_activity].
    rewrite !count_one_keys, IHm, IHu. split; reflexivity.
Qed.

(** ** Authentication *)

Lemma auth_get_set_same (k v : string) (users : list (string * string)) :
  Auth.get k (Auth.set k v users) = Some v.
Proof.
  induction users as [|[k' v'] r IH]; simpl.
  - now rewrite String.eqb_refl.
  - destruct (String.eqb k k') eqn:E; simpl; rewrite E; [reflexivity | exact IH].
Qed.

Lemma auth_get_set_other (k k' v : string) (users : list (string * string)) :
  k' <> k -> Auth.get k' (Auth.set k v users) = Auth.get k' users.
Proof.
  intros Hne. induction users as [|[k0 v0] r IH]; simpl.
  - destruct (String.eqb_spec k' k); [contradiction | reflexivity].
  - destruct (String.eqb_spec k k0) as [->|Hk]; simpl.
    + destruct (String.eqb_spec k' k0); [contradiction | reflexivity].
    + now rewrite IH.
Qed.

Lemma get_after_rows (username : string) (rows : list Auth.user_row)
    (users : list (string * string)) :
  Auth.get username
    (fold_left (fun users row =>
                  Auth.set (Auth.row_username row) (Auth.row_password row) users)
               rows users)
  = match last_row_password username rows with
    | Some p => Some p
    | None => Auth.get username users
    end.
Proof.
  revert users. induction rows as [|row rest IH]; intros users.
  - reflexivity.
  - cbn [fold_left last_row_password]. rewrite IH.
    destruct (last_row_password username rest) as [p|]; [reflexivity|].
    destruct (String.eqb_spec username (Auth.row_username row)) as [->|Hne].
    + apply auth_get_set_same.
    + now apply auth_get_set_other.
Qed.

(** X29.  With a readable user file, [authenticate_user] accepts a pair
    exactly when user name and password are both non-empty and the password
    is the one of the last row for that name in the file or, when the file
    has no row for the name, the built-in password of the name.  A row for a
    built-in name thus replaces its built-in password, and an empty
    password is never accepted, even when the file stores one. *)
Theorem authenticate_user_spec :
  forall (create_ok : bool) (rows : list Auth.user_row)
         (username password : string),
    Auth.authenticate_user create_ok true username password (Some rows) = true
    <->
    username <> "" /\ password <> "" /\
    match last_row_password username rows with
    | Some p => p = password
    | None => In (username, password) Auth.VALID_USERS
    end.
Proof.
  intros create_ok rows username password.
  unfold Auth.authenticate_user, Auth.load_users_from_csv.
  cbn [Auth.ensure_users_csv_exists fst snd].
  rewrite get_after_rows.
  destruct (String.eqb_spec username "") as [->|Hu]; cbn [orb].
  { split; [discriminate | intros (H & _); now contradiction H]. }
  destruct (String.eqb_spec password "") as [->|Hp].
  { split; [discriminate | intros (_ & H & _); now contradiction H]. }
  destruct (last_row_password username rows) as [p|].
  - rewrite String.eqb_eq. tauto.
  - unfold Auth.VALID_USERS. cbn [Auth.get In].
    repeat match goal with
           | |- context [String.eqb username ?k] =>
               destruct (String.eqb_spec username k) as [->|?]
           end;
      try rewrite String.eqb_eq;
      (split;
       [ first [ discriminate
               | intros <-; split; [assumption|]; split; [assumption|];
                 simpl; tauto ]
       | intros (_ & _ & H);
         repeat (destruct H as [H|H]; [inversion H; subst; congruence|]);
         contradiction ]).
Qed.

Lemma auth_set_keeps_keys (k v k' : string) (users : list (string * string)) :
  Auth.get k' users <> None -> Auth.get k' (Auth.set k v users) <> None.
Proof.
  intros H. destruct (String.eqb_spec k' k) as [->|Hne].
  - rewrite auth_get_set_same. discriminate.
  - now rewrite auth_get_set_other.
Qed.

Lemma auth_set_length (k v : string) (users : list (string * string)) :
  (List.length users <= List.length (Auth.set k v users))%nat.
Proof.
  induction users as [|[k' v'] r IH]; simpl; [lia|].
  destruct (String.eqb k k'); simpl; lia.
Qed.

Lemma rows_keep_users (rows : list Auth.user_row)
    (users : list (string * string)) (k : string) :
  let users' :=
    fold_left (fun users row =>
                 Auth.set (Auth.row_username row) (Auth.row_password row) users)
              rows users in
  (Auth.get k users <> None -> Auth.get k users' <> None) /\
  (List.length users <= List.length users')%nat.
Proof.
  revert users. induction rows as [|row rest IH]; intros users; cbn.
  - split; [tauto | lia].
  - destruct (IH (Auth.set (Auth.row_username row) (Auth.row_password row) users))
      as [IH1 IH2].
    split.
    + intros H. now apply IH1, auth_set_keeps_keys.
    + pose proof (auth_set_length (Auth.row_username row)
                    (Auth.row_password row) users). lia.
Qed.

(** X30.  Rows of the user file can change passwords but never remove an
    account: whatever the state of the file and whether or not it can be
    created or read, the four built-in user names exist and the user count
    is at least four. *)
Theorem built_in_users_always_exist :
  forall (create_ok can_read : bool) (f : Auth.users_csv) (username : string),
    In username (map fst Auth.VALID_USERS) ->
    Auth.user_exists create_ok can_read username f = true /\
    4 <= Auth.get_user_count create_ok can_read f.
Proof.
  intros create_ok can_read f username Hin.
  assert (H0 : Auth.get username Auth.VALID_USERS <> None).
  { simpl in Hin. destruct Hin as [<-|[<-|[<-|[<-|[]]]]]; discriminate. }
  unfold Auth.user_exists, Auth.get_user_count, Auth.load_users_from_csv.
  destruct f as [rows|]; [|destruct create_ok]; destruct can_read;
    cbn [Auth.ensure_users_csv_exists fst snd fold_left];
    try (split; [destruct (Auth.get username Auth.VALID_USERS);
                 [reflexivity | now contradiction H0]
                | simpl; lia]).
  destruct (rows_keep_users rows Auth.VALID_USERS username) as [Hk Hl].
  cbv zeta in Hk, Hl. specialize (Hk H0). clear H0. split.
  - destruct (Auth.get username _); [reflexivity | now contradiction Hk].
  - simpl in Hl. lia.
Qed.

Lemma built_in_users_always_exist_witness :
  let f := Some [Auth.UserRow "admin" "changed" "2024-05-01 10:00:00" "";
                 Auth.UserRow "zoe" "secret1" "2024-05-02 09:00:00" ""] in
  In "admin" (map fst Auth.VALID_USERS) /\
  Auth.user_exists true true "admin" f = true.
Proof.
  intros f.
  assert (H : In "admin" (map fst Auth.VALID_USERS)) by (simpl; tauto).
  split; [exact H|].
  apply (@built_in_users_always_exist true true f "admin" H).
Defined.
